(** * Shared user state of the AdminPortal example (NgRx store, reducer,
      selectors and effects of [ngrx-shared-state-example.ts])

    The development follows the file step by step: the state and its
    initial value (Step 1), the actions (Step 2), the reducer (Step 3), the
    selectors (Step 4), the effects (Step 5) and the auth service they call
    (Step 6), and the root state registered in the store (Step 7). *)

From Stdlib Require Import String List Bool Arith Lia.
Import ListNotations.
Open Scope string_scope.
Open Scope list_scope.

(** ** Objects, identity and allocation

    Every object of the program is created once (by an object literal, a
    spread [{...x}] or the parsing of an HTTP response) and never written
    to afterwards.  An object is therefore modelled as its identity together
    with its fields; [===] on objects compares identities, an object literal
    draws a fresh identity from the allocation counter. *)

Definition ref := nat.

Record Obj (A : Type) : Type := mkObj { oid : ref; fields : A }.
Arguments mkObj {A} _ _.
Arguments oid {A} _.
Arguments fields {A} _.

(** JavaScript's [===]: identity on objects, value on primitives. *)
Class StrictEq (A : Type) : Type := strict_eq : A -> A -> bool.

#[export] Instance StrictEq_Obj {A : Type} : StrictEq (Obj A) :=
  fun x y => Nat.eqb (oid x) (oid y).
#[export] Instance StrictEq_bool : StrictEq bool := Bool.eqb.
#[export] Instance StrictEq_string : StrictEq string := String.eqb.
(** [null]/[undefined] against a value of type [A]. *)
#[export] Instance StrictEq_option {A : Type} `{StrictEq A} : StrictEq (option A) :=
  fun x y =>
    match x, y with
    | None, None => true
    | Some a, Some b => strict_eq a b
    | _, _ => false
    end.

(** Computations that create objects thread the allocation counter. *)
Definition Alloc (A : Type) : Type := ref -> A * ref.

Definition ret {A : Type} (a : A) : Alloc A := fun n => (a, n).

Definition bind {A B : Type} (m : Alloc A) (k : A -> Alloc B) : Alloc B :=
  fun n => let (a, n') := m n in k a n'.

Notation "x <- m ;; k" := (bind m (fun x => k))
  (at level 61, m at next level, right associativity).

(** An object literal. *)
Definition new {A : Type} (v : A) : Alloc (Obj A) :=
  fun n => (mkObj n v, S n).

(** ** Step 1: the state and its initial value *)

Record User : Type := mkUser {
  id : string;
  name : string;
  email : string;
  role : string
}.

Record UserState : Type := mkUserState {
  currentUser : option (Obj User);      (* User | null *)
  isAuthenticated : bool;
  loading : bool;
  error : option string                 (* string | null *)
}.

(** [initialUserState] is created when the module is loaded; it is the first
    object of the program. *)
Definition initialUserState : Obj UserState :=
  mkObj 0 {| currentUser := None;
             isAuthenticated := false;
             loading := false;
             error := None |}.

(** The first identity that is free once the module is loaded. *)
Definition first_ref : ref := 1.

(** ** Step 2: the actions *)

Module UserActions.

Definition login_type := "[Auth] Login".
Definition loginSuccess_type := "[Auth] Login Success".
Definition loginFailure_type := "[Auth] Login Failure".
Definition logout_type := "[Auth] Logout".
Definition logoutSuccess_type := "[Auth] Logout Success".
Definition getUserProfile_type := "[User] Get User Profile".
Definition getUserProfileSuccess_type := "[User] Get User Profile Success".

(** The seven kinds this file creates actions of. *)
Definition types : list string :=
  [ login_type; loginSuccess_type; loginFailure_type; logout_type;
    logoutSuccess_type; getUserProfile_type; getUserProfileSuccess_type ].

Definition registered (kind : string) : bool :=
  existsb (String.eqb kind) types.

End UserActions.

(** An action is what one of the seven creators builds, with the payload
    [props<...>] gives its kind, or an action of another part of the
    application ([@ngrx/store/init], another feature's actions), whose kind
    is none of the seven. *)
Inductive Action : Type :=
| login (username password : string)
| loginSuccess (user : Obj User)
| loginFailure (error : string)
| logout
| logoutSuccess
| getUserProfile
| getUserProfileSuccess (user : Obj User)
| other (kind : string) (foreign : UserActions.registered kind = false).

(** [action.type] *)
Definition type (a : Action) : string :=
  match a with
  | login _ _ => UserActions.login_type
  | loginSuccess _ => UserActions.loginSuccess_type
  | loginFailure _ => UserActions.loginFailure_type
  | logout => UserActions.logout_type
  | logoutSuccess => UserActions.logoutSuccess_type
  | getUserProfile => UserActions.getUserProfile_type
  | getUserProfileSuccess _ => UserActions.getUserProfileSuccess_type
  | other kind _ => kind
  end.

(** The properties a handler destructures from the action, [{ user }] and
    [{ error }]; a property the action does not have reads as absent. *)
Definition props_user (a : Action) : option (Obj User) :=
  match a with
  | loginSuccess user => Some user
  | getUserProfileSuccess user => Some user
  | _ => None
  end.

Definition props_error (a : Action) : option string :=
  match a with
  | loginFailure error => Some error
  | _ => None
  end.

(** ** Step 3: the reducer *)

Definition ActionReducer (T : Type) : Type := Obj T -> Action -> Alloc (Obj T).

(** [on(creator, handler)]: the handler registered for the creator's type. *)
Record On (T : Type) : Type := on { on_type : string; on_reducer : ActionReducer T }.
Arguments on {T} _ _.
Arguments on_type {T} _.
Arguments on_reducer {T} _.

(** The handlers of [on] that match [action.type] are applied in the order
    of registration; with none, the state is returned as it came. *)
Fixpoint run_ons {T : Type} (ons : list (On T)) (state : Obj T) (a : Action)
  : Alloc (Obj T) :=
  match ons with
  | [] => ret state
  | o :: rest =>
      if String.eqb (on_type o) (type a)
      then state' <- on_reducer o state a ;; run_ons rest state' a
      else run_ons rest state a
  end.

(** [createReducer(initialState, ...ons)]: the reducer takes
    [state = initialState] when it is called with [undefined]. *)
Definition createReducer {T : Type} (initialState : Obj T) (ons : list (On T))
  (state : option (Obj T)) (a : Action) : Alloc (Obj T) :=
  run_ons ons (match state with Some s => s | None => initialState end) a.

Definition userReducer : option (Obj UserState) -> Action -> Alloc (Obj UserState) :=
  createReducer initialUserState
    [ on UserActions.login_type (fun state _ =>
        new {| currentUser := currentUser (fields state);
               isAuthenticated := isAuthenticated (fields state);
               loading := true;
               error := None |});

      on UserActions.loginSuccess_type (fun state a =>
        new {| currentUser := props_user a;
               isAuthenticated := true;
               loading := false;
               error := None |});

      on UserActions.loginFailure_type (fun state a =>
        new {| currentUser := currentUser (fields state);
               isAuthenticated := isAuthenticated (fields state);
               loading := false;
               error := props_error a |});

      on UserActions.logout_type (fun state _ =>
        new {| currentUser := currentUser (fields state);
               isAuthenticated := isAuthenticated (fields state);
               loading := true;
               error := error (fields state) |});

      on UserActions.logoutSuccess_type (fun _ _ =>
        new (fields initialUserState));

      on UserActions.getUserProfile_type (fun state _ =>
        new {| currentUser := currentUser (fields state);
               isAuthenticated := isAuthenticated (fields state);
               loading := true;
               error := error (fields state) |});

      on UserActions.getUserProfileSuccess_type (fun state a =>
        new {| currentUser := props_user a;
               isAuthenticated := isAuthenticated (fields state);
               loading := false;
               error := error (fields state) |}) ].

(** What a deep comparison sees of a state: the fields, and behind
    [currentUser] the fields of the user, no identities. *)
Record UserStateValue : Type := mkUserStateValue {
  v_currentUser : option User;
  v_isAuthenticated : bool;
  v_loading : bool;
  v_error : option string
}.

Definition deepValue (s : Obj UserState) : UserStateValue :=
  {| v_currentUser := option_map fields (currentUser (fields s));
     v_isAuthenticated := isAuthenticated (fields s);
     v_loading := loading (fields s);
     v_error := error (fields s) |}.

Definition deepEqual (s t : Obj UserState) : Prop := deepValue s = deepValue t.

(** Comparison of the own fields with [===] (the user by identity). *)
Definition shallowEqual (s t : Obj UserState) : bool :=
  strict_eq (currentUser (fields s)) (currentUser (fields t))
  && strict_eq (isAuthenticated (fields s)) (isAuthenticated (fields t))
  && strict_eq (loading (fields s)) (loading (fields t))
  && strict_eq (error (fields s)) (error (fields t)).

(** The user slice after a sequence of actions, from [initialUserState]. *)
Fixpoint reduce_all (state : Obj UserState) (actions : list Action)
  : Alloc (Obj UserState) :=
  match actions with
  | [] => ret state
  | a :: rest => state' <- userReducer (Some state) a ;; reduce_all state' rest
  end.

(** ** Step 7: the root state and the store *)

Record AppState : Type := mkAppState { user : Obj UserState }.

(** Modelled from the spec: the reducer registry of section 4.2, as
    [StoreModule.forRoot({ user: userReducer })] sets it up (the store itself
    is the NgRx library, not part of this file).  The next state gives the
    [user] key the result of [userReducer]; when that result is the slice it
    was given, the state object itself is returned, and a new state object
    is built otherwise.  The slices are compared by reference
    ([nextStateForKey !== previousStateForKey]), as the library does. *)
Definition rootReducer (state : option (Obj AppState)) (a : Action)
  : Alloc (Obj AppState) :=
  match state with
  | None =>
      nextStateForKey <- userReducer None a ;;
      new {| user := nextStateForKey |}
  | Some s =>
      let previousStateForKey := user (fields s) in
      nextStateForKey <- userReducer (Some previousStateForKey) a ;;
      if strict_eq nextStateForKey previousStateForKey
      then ret s
      else new {| user := nextStateForKey |}
  end.

(** The whole state after a sequence of actions. *)
Fixpoint replay (state : Obj AppState) (actions : list Action)
  : Alloc (Obj AppState) :=
  match actions with
  | [] => ret state
  | a :: rest => state' <- rootReducer (Some state) a ;; replay state' rest
  end.

(** ** Step 4: the selectors *)

(** Modelled from the spec: the selector node of section 4.3
    ([createSelector] is the NgRx library).  A node caches its last-seen
    upstream input and its last-computed output; [recomputations] counts the
    calls of the projection function. *)
Record Memo (A B : Type) : Type := mkMemo {
  cached : option (A * B);
  recomputations : nat
}.
Arguments mkMemo {A B} _ _.
Arguments cached {A B} _.
Arguments recomputations {A B} _.

Definition emptyMemo {A B : Type} : Memo A B := mkMemo None 0.

(** Modelled from the spec: a read re-derives the value only when the
    upstream input differs from the cached one ([===]: identity for objects,
    value for primitives), and returns the cached output otherwise. *)
Definition memoized {A B : Type} `{StrictEq A} (projector : A -> B)
  (m : Memo A B) (arg : A) : B * Memo A B :=
  match cached m with
  | Some (lastArg, lastResult) =>
      if strict_eq arg lastArg
      then (lastResult, m)
      else let result := projector arg in
           (result, mkMemo (Some (arg, result)) (S (recomputations m)))
  | None =>
      let result := projector arg in
      (result, mkMemo (Some (arg, result)) (S (recomputations m)))
  end.

(** The caches of the six selectors of the file.  The selectors are module
    constants: whoever reads [selectCurrentUser], directly or through
    [selectUserRole], reads the same node. *)
Record SelectorGraph : Type := mkSelectorGraph {
  userState_memo : Memo (Obj UserState) (Obj UserState);
  currentUser_memo : Memo (Obj UserState) (option (Obj User));
  isAuthenticated_memo : Memo (Obj UserState) bool;
  userLoading_memo : Memo (Obj UserState) bool;
  userError_memo : Memo (Obj UserState) (option string);
  userRole_memo : Memo (option (Obj User)) (option string)
}.

Definition emptyGraph : SelectorGraph :=
  mkSelectorGraph emptyMemo emptyMemo emptyMemo emptyMemo emptyMemo emptyMemo.

Definition set_userState_memo m (g : SelectorGraph) : SelectorGraph :=
  mkSelectorGraph m (currentUser_memo g) (isAuthenticated_memo g)
    (userLoading_memo g) (userError_memo g) (userRole_memo g).
Definition set_currentUser_memo m (g : SelectorGraph) : SelectorGraph :=
  mkSelectorGraph (userState_memo g) m (isAuthenticated_memo g)
    (userLoading_memo g) (userError_memo g) (userRole_memo g).
Definition set_isAuthenticated_memo m (g : SelectorGraph) : SelectorGraph :=
  mkSelectorGraph (userState_memo g) (currentUser_memo g) m
    (userLoading_memo g) (userError_memo g) (userRole_memo g).
Definition set_userLoading_memo m (g : SelectorGraph) : SelectorGraph :=
  mkSelectorGraph (userState_memo g) (currentUser_memo g) (isAuthenticated_memo g)
    m (userError_memo g) (userRole_memo g).
Definition set_userError_memo m (g : SelectorGraph) : SelectorGraph :=
  mkSelectorGraph (userState_memo g) (currentUser_memo g) (isAuthenticated_memo g)
    (userLoading_memo g) m (userRole_memo g).
Definition set_userRole_memo m (g : SelectorGraph) : SelectorGraph :=
  mkSelectorGraph (userState_memo g) (currentUser_memo g) (isAuthenticated_memo g)
    (userLoading_memo g) (userError_memo g) m.

(** A selector reads the root state and updates the caches on its way. *)
Definition Selector (B : Type) : Type :=
  Obj AppState -> SelectorGraph -> B * SelectorGraph.

(** [createSelector(input, projector)]: evaluate the upstream selector, then
    the node, whose cache lives at [get]/[set] in the graph. *)
Definition createSelector {A B : Type} `{StrictEq A}
  (input : Selector A) (projector : A -> B)
  (get : SelectorGraph -> Memo A B)
  (set : Memo A B -> SelectorGraph -> SelectorGraph) : Selector B :=
  fun root g =>
    let (arg, g1) := input root g in
    let (result, m) := memoized projector (get g1) arg in
    (result, set m g1).

(** [createFeatureSelector<UserState>('user')] *)
Definition selectUserState : Selector (Obj UserState) :=
  createSelector (fun root g => (user (fields root), g))
    (fun featureState => featureState)
    userState_memo set_userState_memo.

Definition selectCurrentUser : Selector (option (Obj User)) :=
  createSelector selectUserState
    (fun state : Obj UserState => currentUser (fields state))
    currentUser_memo set_currentUser_memo.

Definition selectIsAuthenticated : Selector bool :=
  createSelector selectUserState
    (fun state : Obj UserState => isAuthenticated (fields state))
    isAuthenticated_memo set_isAuthenticated_memo.

Definition selectUserLoading : Selector bool :=
  createSelector selectUserState
    (fun state : Obj UserState => loading (fields state))
    userLoading_memo set_userLoading_memo.

Definition selectUserError : Selector (option string) :=
  createSelector selectUserState
    (fun state : Obj UserState => error (fields state))
    userError_memo set_userError_memo.

(** [user?.role]: [undefined] without a user. *)
Definition selectUserRole : Selector (option string) :=
  createSelector selectCurrentUser
    (fun user : option (Obj User) => option_map (fun u => role (fields u)) user)
    userRole_memo set_userRole_memo.

(** ** The store: dispatch and subscriptions *)

(** The six selectors of the file, by name. *)
Inductive Node : Type :=
| userState_node           (* selectUserState *)
| currentUser_node         (* selectCurrentUser *)
| isAuthenticated_node     (* selectIsAuthenticated *)
| userLoading_node         (* selectUserLoading *)
| userError_node           (* selectUserError *)
| userRole_node.           (* selectUserRole *)

(** What [store.select] can be asked for: the [user] slice by its name, or
    one of the selectors. *)
Inductive Target : Type :=
| slice_user
| selector (n : Node).

(** The values these targets deliver. *)
Inductive Value : Type :=
| V_state (s : Obj UserState)
| V_user (u : option (Obj User))
| V_bool (b : bool)
| V_string (s : option string).

#[export] Instance StrictEq_Value : StrictEq Value :=
  fun x y =>
    match x, y with
    | V_state s, V_state t => strict_eq s t
    | V_user u, V_user v => strict_eq u v
    | V_bool b, V_bool c => strict_eq b c
    | V_string s, V_string t => strict_eq s t
    | _, _ => false
    end.

Definition selectNode (n : Node) : Selector Value :=
  fun root g =>
    match n with
    | userState_node =>
        let (v, g') := selectUserState root g in (V_state v, g')
    | currentUser_node =>
        let (v, g') := selectCurrentUser root g in (V_user v, g')
    | isAuthenticated_node =>
        let (v, g') := selectIsAuthenticated root g in (V_bool v, g')
    | userLoading_node =>
        let (v, g') := selectUserLoading root g in (V_bool v, g')
    | userError_node =>
        let (v, g') := selectUserError root g in (V_string v, g')
    | userRole_node =>
        let (v, g') := selectUserRole root g in (V_string v, g')
    end.

Definition select (t : Target) : Selector Value :=
  fun root g =>
    match t with
    | slice_user => (V_state (user (fields root)), g)
    | selector n => selectNode n root g
    end.

(** Modelled from the spec: the subscriber of section 4.5 (the observers the
    components get from [this.store.select(...)]): its target, the last
    value delivered to it, and the number of calls of its callback. *)
Record Subscriber : Type := mkSubscriber {
  target : Target;
  lastDelivered : Value;
  notifications : nat
}.

(** Modelled from the spec: the state store of sections 4.1 and 4.2, with
    its current state, the allocation counter of the program, the selector
    caches, the active subscriptions, and the re-entrancy guard, which is up
    while reducers and synchronous subscribers run. *)
Record Store : Type := mkStore {
  state : Obj AppState;
  fresh : ref;
  graph : SelectorGraph;
  subscribers : list Subscriber;
  dispatching : bool
}.

Inductive Fault : Type :=
| ReentrancyViolation
| OutOfFuel.

Inductive Result (A : Type) : Type :=
| Ok (a : A)
| Err (f : Fault).
Arguments Ok {A} _.
Arguments Err {A} _.

(** Modelled from the spec: on a committed dispatch the target's new value
    is compared with the last value delivered to the subscription, and the
    callback runs only if they differ. *)
Fixpoint notify (root : Obj AppState) (subs : list Subscriber) (g : SelectorGraph)
  : list Subscriber * SelectorGraph :=
  match subs with
  | [] => ([], g)
  | sub :: rest =>
      let (v, g1) := select (target sub) root g in
      let sub' :=
        if strict_eq v (lastDelivered sub)
        then sub
        else mkSubscriber (target sub) v (S (notifications sub)) in
      let (rest', g2) := notify root rest g1 in
      (sub' :: rest', g2)
  end.

(** Modelled from the spec: [subscribe(target, callback)]; the value the
    target has at that moment is the subscription's starting point. *)
Definition subscribe (t : Target) (st : Store) : Store :=
  let (v, g') := select t (state st) (graph st) in
  mkStore (state st) (fresh st) g'
    (subscribers st ++ [mkSubscriber t v 0]) (dispatching st).

(** Modelled from the spec: [dispatch(action)] fails fast when a dispatch is
    in progress; otherwise it computes the next state, swaps the current
    state for it, and notifies. *)
Definition dispatch (a : Action) (st : Store) : Result Store :=
  if dispatching st then Err ReentrancyViolation
  else
    let (next, n') := rootReducer (Some (state st)) a (fresh st) in
    let (subs', g') := notify next (subscribers st) (graph st) in
    Ok (mkStore next n' g' subs' false).

(** [getState()] is the field [state]; a read of a selector outside any
    subscription (the guards' [select(...).pipe(take(1))]): *)
Definition read {B : Type} (sel : Selector B) (st : Store) : B * Store :=
  let (v, g') := sel (state st) (graph st) in
  (v, mkStore (state st) (fresh st) g' (subscribers st) (dispatching st)).

(** The action NgRx dispatches first, to a store without a state. *)
Definition initAction : Action := other "@ngrx/store/init" eq_refl.

Definition initialStore : Store :=
  let (root, n) := rootReducer None initAction first_ref in
  mkStore root n emptyGraph [] false.

Definition Node_eqb (n m : Node) : bool :=
  match n, m with
  | userState_node, userState_node
  | currentUser_node, currentUser_node
  | isAuthenticated_node, isAuthenticated_node
  | userLoading_node, userLoading_node
  | userError_node, userError_node
  | userRole_node, userRole_node => true
  | _, _ => false
  end.

Definition Target_eqb (t u : Target) : bool :=
  match t, u with
  | slice_user, slice_user => true
  | selector n, selector m => Node_eqb n m
  | _, _ => false
  end.

(** The total of callback calls over the subscriptions of a target. *)
Definition notificationsFor (t : Target) (st : Store) : nat :=
  list_sum (map notifications
    (filter (fun sub => Target_eqb (target sub) t) (subscribers st))).

Definition totalNotifications (st : Store) : nat :=
  list_sum (map notifications (subscribers st)).

(** ** Observables

    The observables of the file are finite: an HTTP exchange or [of(...)]
    emits its values and then completes or fails.  [performed] lists what
    the observable did to the outside on its way ([tap]). *)

Record JsError : Type := mkError { message : string }.

Inductive SideEffect : Type :=
| setItem (key value : string)        (* localStorage.setItem *)
| removeItem (key : string)           (* localStorage.removeItem *)
| navigate (commands : list string).  (* router.navigate *)

Inductive Ending : Type :=
| completed
| errored (e : JsError).

Record Observable (A : Type) : Type := mkObservable {
  emitted : list A;
  ending : Ending;
  performed : list SideEffect
}.
Arguments mkObservable {A} _ _ _.
Arguments emitted {A} _.
Arguments ending {A} _.
Arguments performed {A} _.

Notation "o |> f" := (f o) (at level 45, left associativity, only parsing).

Module Rx.

Definition of_ {A : Type} (a : A) : Observable A :=
  mkObservable [a] completed [].

Definition throwError {A : Type} (e : JsError) : Observable A :=
  mkObservable [] (errored e) [].

Definition map {A B : Type} (f : A -> B) (o : Observable A) : Observable B :=
  mkObservable (List.map f (emitted o)) (ending o) (performed o).

Definition tap {A : Type} (f : A -> SideEffect) (o : Observable A) : Observable A :=
  mkObservable (emitted o) (ending o) (performed o ++ List.map f (emitted o)).

(** When the source fails, the observable the handler returns takes over. *)
Definition catchError {A : Type} (handler : JsError -> Observable A)
  (o : Observable A) : Observable A :=
  match ending o with
  | completed => o
  | errored e =>
      let o' := handler e in
      mkObservable (emitted o ++ emitted o') (ending o') (performed o ++ performed o')
  end.

End Rx.

(** What Angular's [HttpClient] answers: one body, or an error. *)
Inductive HttpResponse (B : Type) : Type :=
| HttpOk (body : B)
| HttpError (e : JsError).
Arguments HttpOk {B} _.
Arguments HttpError {B} _.

(** ** Step 6: the auth service *)

Module AuthService.

Definition apiUrl := "api/auth".
Definition tokenKey := "auth_token".

(** [{ token: string; user: User }] *)
Record LoginBody : Type := mkLoginBody { token : string; body_user : Obj User }.

(** [login(username, password)], given what [http.post] answers. *)
Definition login (post : Observable LoginBody) : Observable (Obj User) :=
  post
  |> Rx.tap (fun response => setItem tokenKey (token response))
  |> Rx.map (fun response => body_user response)
  |> Rx.catchError (fun _ => Rx.throwError (mkError "Invalid credentials")).

Definition logout : Observable unit :=
  mkObservable [tt] completed [removeItem tokenKey].

(** [getCurrentUser()], given what [http.get] answers. *)
Definition getCurrentUser (get : Observable (Obj User)) : Observable (Obj User) :=
  get
  |> Rx.catchError (fun _ => Rx.throwError (mkError "Failed to fetch user profile")).

End AuthService.

(** ** Step 5: the effects *)

Module UserEffects.

(** The inner pipes of [login$], [logout$] and [getUserProfile$], given the
    observable the service call returns. *)
Definition login_inner (call : Observable (Obj User)) : Observable Action :=
  call
  |> Rx.map (fun user => loginSuccess user)
  |> Rx.catchError (fun error => Rx.of_ (loginFailure (message error))).

Definition logout_inner (call : Observable unit) : Observable Action :=
  call
  |> Rx.map (fun _ => logoutSuccess)
  |> Rx.catchError (fun _ => Rx.of_ logoutSuccess).

Definition getUserProfile_inner (call : Observable (Obj User)) : Observable Action :=
  call
  |> Rx.map (fun user => getUserProfileSuccess user)
  |> Rx.catchError (fun error => Rx.of_ (loginFailure (message error))).

End UserEffects.

(** An effect is a subscription to the action stream: [alive] until its
    stream fails, with the inner subscriptions [mergeMap] holds at the moment
    (the service calls that have not settled).  [mergeMap] subscribes to
    every inner observable as its trigger arrives and merges what they emit;
    it cancels none of them when a later trigger arrives. *)
Record EffectState : Type := mkEffectState {
  alive : bool;
  active : list nat
}.

Definition started : EffectState := mkEffectState true [].

(** [mergeMap] subscribes to one more inner observable. *)
Definition subscribe_inner (call : nat) (e : EffectState) : EffectState :=
  mkEffectState (alive e) (active e ++ [call]).

(** The effect's stream after an inner observable has ended: an error that
    reaches [mergeMap] fails the stream and unsubscribes what is left. *)
Definition stream_after (how : Ending) (e : EffectState) : EffectState :=
  match how with
  | completed => e
  | errored _ => mkEffectState false []
  end.

(** The inner observable of [call] has ended. *)
Definition inner_ended (call : nat) (how : Ending) (e : EffectState) : EffectState :=
  stream_after how
    (mkEffectState (alive e) (filter (fun c => negb (Nat.eqb c call)) (active e))).

Record Effects : Type := mkEffects {
  login_fx : EffectState;              (* login$ *)
  loginSuccess_fx : EffectState;       (* loginSuccess$ *)
  logout_fx : EffectState;             (* logout$ *)
  logoutSuccess_fx : EffectState;      (* logoutSuccess$ *)
  getUserProfile_fx : EffectState;     (* getUserProfile$ *)
  nextCall : nat
}.

Definition ofType (kind : string) (a : Action) : bool := String.eqb kind (type a).

(** What the five effects do when the action stream carries [a]: the new
    effect states, the actions they emit at once, and what they perform. *)
Definition observe (a : Action) (fx : Effects)
  : Effects * list Action * list SideEffect :=
  let login1 :=
    if alive (login_fx fx) && ofType UserActions.login_type a
    then (subscribe_inner (nextCall fx) (login_fx fx), S (nextCall fx))
    else (login_fx fx, nextCall fx) in
  let navigated1 :=
    if alive (loginSuccess_fx fx) && ofType UserActions.loginSuccess_type a
    then [navigate ["/dashboard"]] else [] in
  let logout1 :=
    if alive (logout_fx fx) && ofType UserActions.logout_type a
    then let inner := UserEffects.logout_inner AuthService.logout in
         (stream_after (ending inner) (logout_fx fx), emitted inner, performed inner)
    else (logout_fx fx, [], []) in
  let navigated2 :=
    if alive (logoutSuccess_fx fx) && ofType UserActions.logoutSuccess_type a
    then [navigate ["/login"]] else [] in
  let profile1 :=
    if alive (getUserProfile_fx fx) && ofType UserActions.getUserProfile_type a
    then (subscribe_inner (snd login1) (getUserProfile_fx fx), S (snd login1))
    else (getUserProfile_fx fx, snd login1) in
  (mkEffects (fst login1) (loginSuccess_fx fx) (fst (fst logout1))
     (logoutSuccess_fx fx) (fst profile1) (snd profile1),
   snd (fst logout1),
   navigated1 ++ snd logout1 ++ navigated2).

(** ** The running application *)

Record System : Type := mkSystem {
  store : Store;
  effects : Effects;
  dispatched : list Action;       (* every action the bus has carried, oldest first *)
  done : list SideEffect          (* what was asked of router and localStorage *)
}.

(** The bus: each action is reduced and notified, then shown to the effects;
    what they emit is dispatched after the actions already waiting. *)
Fixpoint run_bus (fuel : nat) (queue : list Action) (sys : System) : Result System :=
  match queue with
  | [] => Ok sys
  | a :: rest =>
      match fuel with
      | 0 => Err OutOfFuel
      | S fuel' =>
          match dispatch a (store sys) with
          | Err f => Err f
          | Ok st' =>
              let '(fx', followups, effs) := observe a (effects sys) in
              run_bus fuel' (rest ++ followups)
                (mkSystem st' fx' (dispatched sys ++ [a]) (done sys ++ effs))
          end
      end
  end.

(** What happens to the application: a component dispatches, or one of the
    two HTTP exchanges settles. *)
Inductive Event : Type :=
| Dispatch (a : Action)
| LoginResponse (call : nat) (r : HttpResponse (string * User))
| ProfileResponse (call : nat) (r : HttpResponse User).

Definition with_fresh (n : ref) (st : Store) : Store :=
  mkStore (state st) n (graph st) (subscribers st) (dispatching st).

Definition step (fuel : nat) (ev : Event) (sys : System) : Result System :=
  let fx := effects sys in
  match ev with
  | Dispatch a => run_bus fuel [a] sys
  | LoginResponse call r =>
      if alive (login_fx fx) && existsb (Nat.eqb call) (active (login_fx fx))
      then
        let (post, n') :=
          match r with
          | HttpOk (tok, u) =>
              let (uo, n') := new u (fresh (store sys)) in
              (Rx.of_ (AuthService.mkLoginBody tok uo), n')
          | HttpError e => (Rx.throwError e, fresh (store sys))
          end in
        let inner := UserEffects.login_inner (AuthService.login post) in
        let fx' := mkEffects (inner_ended call (ending inner) (login_fx fx))
                     (loginSuccess_fx fx) (logout_fx fx) (logoutSuccess_fx fx)
                     (getUserProfile_fx fx) (nextCall fx) in
        run_bus fuel (emitted inner)
          (mkSystem (with_fresh n' (store sys)) fx' (dispatched sys)
             (done sys ++ performed inner))
      else Ok sys
  | ProfileResponse call r =>
      if alive (getUserProfile_fx fx)
         && existsb (Nat.eqb call) (active (getUserProfile_fx fx))
      then
        let (get, n') :=
          match r with
          | HttpOk u =>
              let (uo, n') := new u (fresh (store sys)) in (Rx.of_ uo, n')
          | HttpError e => (Rx.throwError e, fresh (store sys))
          end in
        let inner := UserEffects.getUserProfile_inner (AuthService.getCurrentUser get) in
        let fx' := mkEffects (login_fx fx) (loginSuccess_fx fx) (logout_fx fx)
                     (logoutSuccess_fx fx)
                     (inner_ended call (ending inner) (getUserProfile_fx fx))
                     (nextCall fx) in
        run_bus fuel (emitted inner)
          (mkSystem (with_fresh n' (store sys)) fx' (dispatched sys)
             (done sys ++ performed inner))
      else Ok sys
  end.

Fixpoint run (fuel : nat) (events : list Event) (sys : System) : Result System :=
  match events with
  | [] => Ok sys
  | ev :: rest =>
      match step fuel ev sys with
      | Ok sys' => run fuel rest sys'
      | Err f => Err f
      end
  end.

(** The application once the store is initialised, the effects are started
    and the given targets are subscribed to. *)
Definition initialSystem (targets : list Target) : System :=
  mkSystem (fold_left (fun st t => subscribe t st) targets initialStore)
    (mkEffects started started started started started 0) [] [].

(** ** Notions the properties are stated with *)

Definition state_or_initial (state : option (Obj UserState)) : Obj UserState :=
  match state with Some s => s | None => initialUserState end.

Definition deepEqualApp (r1 r2 : Obj AppState) : Prop :=
  deepEqual (user (fields r1)) (user (fields r2)).

(** [isAuthenticated] only with a user. *)
Definition authenticatedHasUser (s : Obj UserState) : bool :=
  implb (isAuthenticated (fields s))
    (match currentUser (fields s) with Some _ => true | None => false end).

(** The stores the application can be in: the initial one, and what
    subscriptions, committed dispatches, reads of selectors and allocations
    elsewhere in the program make of it. *)
Inductive reachable : Store -> Prop :=
| reach_init : reachable initialStore
| reach_subscribe t st : reachable st -> reachable (subscribe t st)
| reach_dispatch a st st' :
    reachable st -> dispatch a st = Ok st' -> reachable st'
| reach_read n st : reachable st -> reachable (snd (read (selectNode n) st))
| reach_alloc st : reachable st -> reachable (with_fresh (S (fresh st)) st).

(** The upstream value a selector's node is keyed on, read off the state
    without any cache: the slice for the selectors built on
    [selectUserState] (and for the feature selector itself), the current
    user for [selectUserRole]. *)
Definition dependency (n : Node) (root : Obj AppState) : Value :=
  match n with
  | userRole_node => V_user (currentUser (fields (user (fields root))))
  | _ => V_state (user (fields root))
  end.

(** The calls of a selector's projection function so far. *)
Definition countOf (n : Node) (g : SelectorGraph) : nat :=
  match n with
  | userState_node => recomputations (userState_memo g)
  | currentUser_node => recomputations (currentUser_memo g)
  | isAuthenticated_node => recomputations (isAuthenticated_memo g)
  | userLoading_node => recomputations (userLoading_memo g)
  | userError_node => recomputations (userError_memo g)
  | userRole_node => recomputations (userRole_memo g)
  end.

(** [k] reads of a selector in a row. *)
Fixpoint reads (n : Node) (k : nat) (st : Store) : Store :=
  match k with
  | 0 => st
  | S k' => reads n k' (snd (read (selectNode n) st))
  end.

(** What the application does with the store between two moments:
    dispatches, and reads of selectors. *)
Inductive Use : Type :=
| use_dispatch (a : Action)
| use_read (n : Node).

Fixpoint uses (us : list Use) (st : Store) : Result Store :=
  match us with
  | [] => Ok st
  | use_dispatch a :: rest =>
      match dispatch a st with
      | Ok st' => uses rest st'
      | Err f => Err f
      end
  | use_read n :: rest => uses rest (snd (read (selectNode n) st))
  end.

(** No dispatch among [us] changes the dependency of the selector [n]. *)
Fixpoint keeps (n : Node) (us : list Use) (st : Store) : bool :=
  match us with
  | [] => true
  | use_dispatch a :: rest =>
      match dispatch a st with
      | Ok st' =>
          strict_eq (dependency n (state st')) (dependency n (state st))
          && keeps n rest st'
      | Err _ => true
      end
  | use_read m :: rest => keeps n rest (snd (read (selectNode m) st))
  end.

(** ** Notions the invariants are stated with *)

(** The two halves of a read of a node: the value it returns and the cache
    it leaves; and whether the cache answers for an input. *)
Definition out {A B : Type} `{StrictEq A} (projector : A -> B)
  (m : Memo A B) (arg : A) : B :=
  fst (memoized projector m arg).

Definition touch {A B : Type} `{StrictEq A} (projector : A -> B)
  (m : Memo A B) (arg : A) : Memo A B :=
  snd (memoized projector m arg).

Definition hit {A B : Type} `{StrictEq A} (m : Memo A B) (arg : A) : bool :=
  match cached m with
  | Some (lastArg, _) => strict_eq arg lastArg
  | None => false
  end.

(** [===] is an equivalence on the inputs of the nodes. *)
Class StrictEquivalence (A : Type) `{StrictEq A} : Prop := {
  strict_eq_refl : forall x : A, strict_eq x x = true;
  strict_eq_sym : forall x y : A, strict_eq x y = strict_eq y x;
  strict_eq_trans : forall x y z : A,
      strict_eq x y = true -> strict_eq y z = true -> strict_eq x z = true
}.

Definition project_userState (featureState : Obj UserState) : Obj UserState :=
  featureState.
Definition project_currentUser (s : Obj UserState) : option (Obj User) :=
  currentUser (fields s).
Definition project_isAuthenticated (s : Obj UserState) : bool :=
  isAuthenticated (fields s).
Definition project_userLoading (s : Obj UserState) : bool :=
  loading (fields s).
Definition project_userError (s : Obj UserState) : option string :=
  error (fields s).
Definition project_userRole (u : option (Obj User)) : option string :=
  option_map (fun u => role (fields u)) u.

(** A cache keyed on slices is sound for the current slice [c] and the
    counter [n]: its output is the projection of its input, which is an
    object older than [n], and the current slice if it has its identity. *)
Definition memoOk {B : Type} (projector : Obj UserState -> B)
  (c : Obj UserState) (n : ref) (m : Memo (Obj UserState) B) : Prop :=
  match cached m with
  | None => True
  | Some (a, b) => b = projector a /\ oid a < n /\ (oid a = oid c -> a = c)
  end.

Definition graphOk (c : Obj UserState) (n : ref) (g : SelectorGraph) : Prop :=
  memoOk project_userState c n (userState_memo g)
  /\ memoOk project_currentUser c n (currentUser_memo g)
  /\ memoOk project_isAuthenticated c n (isAuthenticated_memo g)
  /\ memoOk project_userLoading c n (userLoading_memo g)
  /\ memoOk project_userError c n (userError_memo g).

(** The caches after a read of the selector [n] on the state [root]. *)
Definition touchNode (n : Node) (root : Obj AppState) (g : SelectorGraph)
  : SelectorGraph :=
  let c := user (fields root) in
  let g1 := set_userState_memo (touch project_userState (userState_memo g) c) g in
  match n with
  | userState_node => g1
  | currentUser_node =>
      set_currentUser_memo (touch project_currentUser (currentUser_memo g1) c) g1
  | isAuthenticated_node =>
      set_isAuthenticated_memo
        (touch project_isAuthenticated (isAuthenticated_memo g1) c) g1
  | userLoading_node =>
      set_userLoading_memo (touch project_userLoading (userLoading_memo g1) c) g1
  | userError_node =>
      set_userError_memo (touch project_userError (userError_memo g1) c) g1
  | userRole_node =>
      let g2 :=
        set_currentUser_memo (touch project_currentUser (currentUser_memo g1) c) g1 in
      set_userRole_memo
        (touch project_userRole (userRole_memo g2) (currentUser (fields c))) g2
  end.

Definition touchTarget (t : Target) (root : Obj AppState) (g : SelectorGraph)
  : SelectorGraph :=
  match t with
  | slice_user => g
  | selector n => touchNode n root g
  end.

(** The value such a read returns, with sound caches. *)
Definition valueNode (n : Node) (root : Obj AppState) (g : SelectorGraph) : Value :=
  let c := user (fields root) in
  match n with
  | userState_node => V_state c
  | currentUser_node => V_user (currentUser (fields c))
  | isAuthenticated_node => V_bool (isAuthenticated (fields c))
  | userLoading_node => V_bool (loading (fields c))
  | userError_node => V_string (error (fields c))
  | userRole_node =>
      V_string (out project_userRole (userRole_memo g) (currentUser (fields c)))
  end.

Definition valueTarget (t : Target) (root : Obj AppState) (g : SelectorGraph) : Value :=
  match t with
  | slice_user => V_state (user (fields root))
  | selector n => valueNode n root g
  end.

(** What a committed dispatch does to one subscription. *)
Definition deliver (root : Obj AppState) (g : SelectorGraph) (sub : Subscriber)
  : Subscriber :=
  if strict_eq (valueTarget (target sub) root g) (lastDelivered sub)
  then sub
  else mkSubscriber (target sub) (valueTarget (target sub) root g)
         (S (notifications sub)).

(** Every subscription has been delivered the value its target has now. *)
Definition subscribersOk (root : Obj AppState) (g : SelectorGraph)
  (subs : list Subscriber) : Prop :=
  Forall (fun sub =>
            strict_eq (valueTarget (target sub) root g) (lastDelivered sub) = true)
         subs.

(** Whether the cache of the selector [n] answers for the state [root]. *)
Definition hitNode (n : Node) (root : Obj AppState) (g : SelectorGraph) : bool :=
  let c := user (fields root) in
  match n with
  | userState_node => hit (userState_memo g) c
  | currentUser_node => hit (currentUser_memo g) c
  | isAuthenticated_node => hit (isAuthenticated_memo g) c
  | userLoading_node => hit (userLoading_memo g) c
  | userError_node => hit (userError_memo g) c
  | userRole_node => hit (userRole_memo g) (currentUser (fields c))
  end.

(** The invariant of the store. *)
Definition storeOk (st : Store) : Prop :=
  dispatching st = false
  /\ oid (state st) < fresh st
  /\ oid (user (fields (state st))) < fresh st
  /\ graphOk (user (fields (state st))) (fresh st) (graph st)
  /\ subscribersOk (state st) (graph st) (subscribers st).

(** The caches after the reads a notification round makes. *)
Definition touchAll (root : Obj AppState) (subs : list Subscriber)
  (g : SelectorGraph) : SelectorGraph :=
  fold_left (fun g sub => touchTarget (target sub) root g) subs g.

(** The store a dispatch commits, with sound caches. *)
Definition commit (a : Action) (st : Store) : Store :=
  let next := rootReducer (Some (state st)) a (fresh st) in
  mkStore (fst next) (snd next)
    (touchAll (fst next) (subscribers st) (graph st))
    (map (deliver (fst next) (graph st)) (subscribers st))
    false.

(** How the cache of the selector [n] can differ between two graphs: not
    at all, or by one read of [n] on the state [root]. *)
Definition nodeSame (n : Node) (g g' : SelectorGraph) : Prop :=
  (forall root, hitNode n root g' = hitNode n root g)
  /\ countOf n g' = countOf n g.

Definition nodeRead (n : Node) (root : Obj AppState) (g g' : SelectorGraph) : Prop :=
  hitNode n root g' = true
  /\ countOf n g' = if hitNode n root g then countOf n g else S (countOf n g).

Definition nodeStep (n : Node) (root : Obj AppState) (g g' : SelectorGraph) : Prop :=
  nodeSame n g g' \/ nodeRead n root g g'.


(** ** Step 6, continued: the token in [localStorage] *)

Module LocalStorage.

(** The entries of the storage, at most one per key. *)
Definition Storage : Type := list (string * string).

Definition getItem (key : string) (s : Storage) : option string :=
  match find (fun kv => String.eqb key (fst kv)) s with
  | Some kv => Some (snd kv)
  | None => None
  end.

Definition removeItem (key : string) (s : Storage) : Storage :=
  filter (fun kv => negb (String.eqb key (fst kv))) s.

Definition setItem (key value : string) (s : Storage) : Storage :=
  (key, value) :: removeItem key s.

End LocalStorage.

(** What a performed side effect does to the storage. *)
Definition perform (s : LocalStorage.Storage) (eff : SideEffect) : LocalStorage.Storage :=
  match eff with
  | setItem key value => LocalStorage.setItem key value s
  | removeItem key => LocalStorage.removeItem key s
  | navigate _ => s
  end.

(** The storage of an application that started without a token, after what
    it has performed. *)
Definition localStorage (sys : System) : LocalStorage.Storage :=
  fold_left perform (done sys) [].

(** [getToken()] *)
Definition getToken (s : LocalStorage.Storage) : option string :=
  LocalStorage.getItem AuthService.tokenKey s.

(** A string or [null] as a condition: [null] and the empty string are
    falsy. *)
Definition truthy (token : option string) : bool :=
  match token with
  | Some t => negb (String.eqb t "")
  | None => false
  end.

(** [isLoggedIn()]: [!!this.getToken()] *)
Definition isLoggedIn (s : LocalStorage.Storage) : bool :=
  negb (negb (truthy (getToken s))).

(** ** Step 8: the auth interceptor *)

Module AuthInterceptor.

(** [intercept(request, next)]: the request handed to [next.handle], given
    the request's [clone({ setHeaders })]. *)
Definition intercept {Request : Type}
  (clone_setHeaders : list (string * string) -> Request -> Request)
  (s : LocalStorage.Storage) (request : Request) : Request :=
  let token := getToken s in
  if truthy token
  then match token with
       | Some t => clone_setHeaders [("Authorization", "Bearer " ++ t)%string] request
       | None => request
       end
  else request.

End AuthInterceptor.

(** ** Steps 15 and 16: the guards *)

(** [boolean | UrlTree]: a guard lets the navigation through, or sends it
    to the URL of the commands. *)
Inductive GuardResult : Type :=
| allowed
| redirected (commands : list string).

Module AuthGuard.

(** [select(selectIsAuthenticated).pipe(take(1), map(...))]: the value the
    selector has when the guard subscribes. *)
Definition canActivate (st : Store) : GuardResult * Store :=
  let (isAuthenticated, st') := read selectIsAuthenticated st in
  (if isAuthenticated then allowed else redirected ["/login"], st').

End AuthGuard.

Module RoleGuard.

Definition canActivate (st : Store) : GuardResult * Store :=
  let (role, st') := read selectUserRole st in
  (if strict_eq role (Some "admin") then allowed else redirected ["/dashboard"], st').

End RoleGuard.

(** ** Step 17: the guards of the routes *)

Inductive Guard : Type :=
| theAuthGuard
| theRoleGuard.

Definition runGuard (g : Guard) (st : Store) : GuardResult * Store :=
  match g with
  | theAuthGuard => AuthGuard.canActivate st
  | theRoleGuard => RoleGuard.canActivate st
  end.

(** [canActivate: [...]]: every guard of the route is asked; the route is
    activated when all of them allow it, and the first one in the list that
    does not decides where the navigation goes. *)
Fixpoint canActivateAll (guards : list Guard) (st : Store) : GuardResult * Store :=
  match guards with
  | [] => (allowed, st)
  | g :: rest =>
      let (r, st1) := runGuard g st in
      let (r', st2) := canActivateAll rest st1 in
      (match r with allowed => r' | redirected _ => r end, st2)
  end.

(** The [canActivate] lists of the routes [login], [dashboard] and [admin]. *)
Definition guardsOf (path : string) : list Guard :=
  if String.eqb path "dashboard" then [theAuthGuard]
  else if String.eqb path "admin" then [theAuthGuard; theRoleGuard]
  else [].

(** ** Steps 10, 12 and 14: what the components dispatch *)

Module LoginComponent.

(** Both controls carry [Validators.required]: the form is valid when
    neither value is empty. *)
Definition valid (username password : string) : bool :=
  negb (String.eqb username "") && negb (String.eqb password "").

Definition onSubmit (username password : string) : list Event :=
  if valid username password
  then [Dispatch (login username password)]
  else [].

End LoginComponent.

Module AdminDashboardComponent.

Definition onLogout : list Event := [Dispatch logout].

End AdminDashboardComponent.

Module UserProfileComponent.

Definition refreshProfile : list Event := [Dispatch getUserProfile].

Definition ngOnInit : list Event := refreshProfile.

End UserProfileComponent.

(** What happens to the running application: the user acts on a component,
    an HTTP exchange settles, a guard or a template reads a selector, a
    component subscribes. *)
Inductive Happening : Type :=
| login_submitted (username password : string)
| logout_clicked
| profile_opened
| profile_refreshed
| login_answered (call : nat) (r : HttpResponse (string * User))
| profile_answered (call : nat) (r : HttpResponse User)
| selector_read (n : Node)
| target_subscribed (t : Target).

Definition with_store (st : Store) (sys : System) : System :=
  mkSystem st (effects sys) (dispatched sys) (done sys).

Definition happen (fuel : nat) (h : Happening) (sys : System) : Result System :=
  match h with
  | login_submitted username password =>
      run fuel (LoginComponent.onSubmit username password) sys
  | logout_clicked => run fuel AdminDashboardComponent.onLogout sys
  | profile_opened => run fuel UserProfileComponent.ngOnInit sys
  | profile_refreshed => run fuel UserProfileComponent.refreshProfile sys
  | login_answered call r => step fuel (LoginResponse call r) sys
  | profile_answered call r => step fuel (ProfileResponse call r) sys
  | selector_read n => Ok (with_store (snd (read (selectNode n) (store sys))) sys)
  | target_subscribed t => Ok (with_store (subscribe t (store sys)) sys)
  end.

(** The systems the application can be in. *)
Inductive appReachable : System -> Prop :=
| app_started : appReachable (initialSystem [])
| app_happened fuel h sys sys' :
    appReachable sys -> happen fuel h sys = Ok sys' -> appReachable sys'.

(** ** Notions the further properties are stated with *)

(** The fields of the [user] slice of a system, and its current user. *)
Definition sliceOf (st : Store) : UserState := fields (user (fields (state st))).

(** The last of [[Auth] Login Success] and [[Auth] Logout Success] in a
    sequence of actions, if any: [Some true] for a login success. *)
Fixpoint lastAuthChange (actions : list Action) : option bool :=
  match actions with
  | [] => None
  | a :: rest =>
      match lastAuthChange rest with
      | Some b => Some b
      | None =>
          match a with
          | loginSuccess _ => Some true
          | logoutSuccess => Some false
          | _ => None
          end
      end
  end.

(** The cache of the role selector is sound for the current user [cu] and
    the bound [bound]: its output is the projection of its input, which is
    an object older than [bound], and the current user when it has the
    current user's identity. *)
Definition roleMemoOk (bound : ref) (cu : option (Obj User))
  (m : Memo (option (Obj User)) (option string)) : Prop :=
  match cached m with
  | None => True
  | Some (a, b) =>
      b = project_userRole a
      /\ (forall x, a = Some x -> oid x < bound)
      /\ (strict_eq cu a = true -> a = cu)
  end.

(** The current user of a store is older than [bound], and the cache of the
    role selector is sound. *)
Definition usersBelow (bound : ref) (st : Store) : Prop :=
  (forall x, currentUser (sliceOf st) = Some x -> oid x < bound)
  /\ roleMemoOk bound (currentUser (sliceOf st)) (userRole_memo (graph st)).

(** Whether a token is stored. *)
Definition tokenStored (s : LocalStorage.Storage) : bool :=
  match getToken s with Some _ => true | None => false end.

Definition allAlive (fx : Effects) : bool :=
  alive (login_fx fx) && alive (loginSuccess_fx fx) && alive (logout_fx fx)
  && alive (logoutSuccess_fx fx) && alive (getUserProfile_fx fx).

(** The invariant of the running application. *)
Definition systemOk (sys : System) : Prop :=
  storeOk (store sys)
  /\ usersBelow (fresh (store sys)) (store sys)
  /\ allAlive (effects sys) = true
  /\ authenticatedHasUser (user (fields (state (store sys)))) = true
  /\ tokenStored (localStorage sys) = isAuthenticated (sliceOf (store sys)).

(** What the guards answer, as a function of the current state. *)
Definition authDecision (s : UserState) : GuardResult :=
  if isAuthenticated s then allowed else redirected ["/login"].

Definition roleDecision (s : UserState) : GuardResult :=
  match currentUser s with
  | Some u => if String.eqb (role (fields u)) "admin"
              then allowed else redirected ["/dashboard"]
  | None => redirected ["/dashboard"]
  end.

(** The system after a happening, with fuel for two actions. *)
Definition afterHappening (h : Happening) (sys : System) : System :=
  match happen 2 h sys with
  | Ok sys' => sys'
  | Err _ => sys
  end.
(** * Properties *)

(** ** The reducer *)

Lemma foreign_kind (kind : string) :
  UserActions.registered kind = false ->
  forall t, In t UserActions.types -> String.eqb t kind = false.
Proof.
  intros H t Ht. unfold UserActions.registered in H.
  destruct (String.eqb t kind) eqn:E; [|reflexivity].
  apply String.eqb_eq in E. subst t.
  assert (existsb (String.eqb kind) UserActions.types = true).
  { apply existsb_exists. exists kind. split; [assumption|apply String.eqb_refl]. }
  congruence.
Qed.

(** The reducer, handler by handler. *)
Lemma userReducer_eq (state : option (Obj UserState)) (a : Action) (n : ref) :
  userReducer state a n =
  let s := state_or_initial state in
  match a with
  | login _ _ =>
      (mkObj n (mkUserState (currentUser (fields s)) (isAuthenticated (fields s)) true None), S n)
  | loginSuccess u =>
      (mkObj n (mkUserState (Some u) true false None), S n)
  | loginFailure e =>
      (mkObj n (mkUserState (currentUser (fields s)) (isAuthenticated (fields s)) false (Some e)), S n)
  | logout | getUserProfile =>
      (mkObj n (mkUserState (currentUser (fields s)) (isAuthenticated (fields s)) true (error (fields s))), S n)
  | logoutSuccess => (mkObj n (fields initialUserState), S n)
  | getUserProfileSuccess u =>
      (mkObj n (mkUserState (Some u) (isAuthenticated (fields s)) false (error (fields s))), S n)
  | other _ _ => (s, n)
  end.
Proof.
  destruct a; try reflexivity.
  unfold userReducer, createReducer. cbn [run_ons on_type type].
  rewrite !(foreign_kind kind foreign) by (cbn; tauto).
  destruct state; reflexivity.
Qed.

Arguments userReducer : simpl never.

Lemma registered_type (a : Action) :
  UserActions.registered (type a) = match a with other _ _ => false | _ => true end.
Proof. destruct a; try reflexivity. exact foreign. Qed.

(** A handler that runs returns the object it has just built; without a
    handler the state comes back as it is. *)
Lemma userReducer_cases (s : Obj UserState) (a : Action) (n : ref) :
  (UserActions.registered (type a) = true /\
   oid (fst (userReducer (Some s) a n)) = n /\ snd (userReducer (Some s) a n) = S n)
  \/ (UserActions.registered (type a) = false /\ userReducer (Some s) a n = (s, n)).
Proof.
  rewrite userReducer_eq, registered_type.
  destruct a; cbn; auto.
Qed.

(** Equal deep values in, equal deep values out, whatever the counters. *)
Lemma userReducer_deepEqual (s1 s2 : Obj UserState) (a : Action) (n1 n2 : ref) :
  deepEqual s1 s2 ->
  deepEqual (fst (userReducer (Some s1) a n1)) (fst (userReducer (Some s2) a n2)).
Proof.
  unfold deepEqual, deepValue. intros H. injection H as Hu Ha Hl He.
  rewrite !userReducer_eq.
  destruct a; cbn; congruence.
Qed.

Lemma strict_eq_Obj_refl {A : Type} (x : Obj A) : strict_eq x x = true.
Proof. apply Nat.eqb_refl. Qed.

Lemma strict_eq_Obj_fresh {A : Type} (x y : Obj A) :
  oid y < oid x -> strict_eq x y = false.
Proof. intros H. apply Nat.eqb_neq. lia. Qed.

(** The root reducer on a state whose slice is older than the counter. *)
Lemma rootReducer_eq (r : Obj AppState) (a : Action) (n : ref) :
  oid (user (fields r)) < n ->
  rootReducer (Some r) a n =
  if UserActions.registered (type a)
  then (mkObj (S n) (mkAppState (fst (userReducer (Some (user (fields r))) a n))), S (S n))
  else (r, n).
Proof.
  intros Hn. unfold rootReducer, bind.
  destruct (userReducer_cases (user (fields r)) a n) as [(Hr & Ho & Hs) | (Hr & He)];
    rewrite Hr.
  - destruct (userReducer (Some (user (fields r))) a n) as [s' n'] eqn:E.
    cbn in Ho, Hs. subst n'.
    rewrite strict_eq_Obj_fresh by lia. reflexivity.
  - rewrite He. rewrite strict_eq_Obj_refl. reflexivity.
Qed.

Lemma rootReducer_user (r : Obj AppState) (a : Action) (n : ref) :
  oid (user (fields r)) < n ->
  user (fields (fst (rootReducer (Some r) a n)))
    = fst (userReducer (Some (user (fields r))) a n)
  /\ oid (user (fields (fst (rootReducer (Some r) a n)))) < snd (rootReducer (Some r) a n).
Proof.
  intros Hn. rewrite rootReducer_eq by assumption.
  destruct (userReducer_cases (user (fields r)) a n) as [(Hr & Ho & Hs) | (Hr & He)];
    rewrite Hr; cbn [fst snd user fields].
  - split; [reflexivity | rewrite Ho; lia].
  - rewrite He. split; [reflexivity | assumption].
Qed.

Lemma replay_deepEqual (actions : list Action) :
  forall (r1 r2 : Obj AppState) (n1 n2 : ref),
    deepEqualApp r1 r2 ->
    oid (user (fields r1)) < n1 -> oid (user (fields r2)) < n2 ->
    deepEqualApp (fst (replay r1 actions n1)) (fst (replay r2 actions n2)).
Proof.
  induction actions as [|a rest IH]; intros r1 r2 n1 n2 Heq H1 H2; cbn [replay].
  - exact Heq.
  - unfold bind.
    destruct (rootReducer_user r1 a n1 H1) as [U1 F1].
    destruct (rootReducer_user r2 a n2 H2) as [U2 F2].
    destruct (rootReducer (Some r1) a n1) as [r1' n1'].
    destruct (rootReducer (Some r2) a n2) as [r2' n2'].
    cbn [fst snd] in *. apply IH; try assumption.
    unfold deepEqualApp. rewrite U1, U2. apply userReducer_deepEqual. exact Heq.
Qed.

Lemma initialStore_eq :
  initialStore
  = mkStore (mkObj 1 (mkAppState initialUserState)) 2 emptyGraph [] false.
Proof. reflexivity. Qed.

(** C1. Deterministic replay: the whole-state reducer folded over a sequence
    of actions from the initial state gives deeply equal final states each
    time it is done, wherever the allocation counter stands when the replay
    starts; and [userReducer] applied twice to the same state and action
    gives deeply equal states. *)
Theorem deterministic_replay :
  (forall (actions : list Action) (k1 k2 : nat),
      deepEqualApp
        (fst (replay (state initialStore) actions (fresh initialStore + k1)))
        (fst (replay (state initialStore) actions (fresh initialStore + k2))))
  /\ (forall (s : option (Obj UserState)) (a : Action) (n1 n2 : ref),
         deepEqual (fst (userReducer s a n1)) (fst (userReducer s a n2))).
Proof.
  split.
  - intros actions k1 k2. rewrite initialStore_eq. cbn [state fresh].
    apply replay_deepEqual; [reflexivity | cbn; lia | cbn; lia].
  - intros s a n1 n2. rewrite !userReducer_eq. destruct a; reflexivity.
Qed.

Lemma userReducer_keeps_invariant (s : Obj UserState) (a : Action) (n : ref) :
  authenticatedHasUser s = true ->
  authenticatedHasUser (fst (userReducer (Some s) a n)) = true.
Proof.
  unfold authenticatedHasUser. intros H. rewrite userReducer_eq.
  destruct a; cbn; try assumption; try reflexivity.
  - destruct (isAuthenticated (fields s)); reflexivity.
Qed.

Lemma reduce_all_invariant (actions : list Action) :
  forall (s : Obj UserState) (n : ref),
    authenticatedHasUser s = true ->
    authenticatedHasUser (fst (reduce_all s actions n)) = true.
Proof.
  induction actions as [|a rest IH]; intros s n H; cbn [reduce_all].
  - exact H.
  - unfold bind. destruct (userReducer (Some s) a n) as [s' n'] eqn:E.
    apply IH. change s' with (fst (s', n')). rewrite <- E.
    apply userReducer_keeps_invariant. exact H.
Qed.

(** C8. Authentication implies a user: in every state [userReducer] reaches
    from [initialUserState], whatever the actions, [isAuthenticated] holds
    only with a [currentUser]; the flag turns true only under
    [[Auth] Login Success], which stores the user of the action with it, and
    [[Auth] Logout Success] resets both. *)
Theorem authenticated_implies_user :
  (forall (actions : list Action) (n : ref),
      authenticatedHasUser (fst (reduce_all initialUserState actions n)) = true)
  /\ (forall (s : Obj UserState) (a : Action) (n : ref),
         isAuthenticated (fields (fst (userReducer (Some s) a n)))
         = match a with
           | loginSuccess _ => true
           | logoutSuccess => false
           | _ => isAuthenticated (fields s)
           end
         /\ currentUser (fields (fst (userReducer (Some s) a n)))
            = match a with
              | loginSuccess u | getUserProfileSuccess u => Some u
              | logoutSuccess => None
              | _ => currentUser (fields s)
              end).
Proof.
  split.
  - intros actions n. apply reduce_all_invariant. reflexivity.
  - intros s a n. rewrite userReducer_eq. destruct a; cbn; split; reflexivity.
Qed.

(** C9. Login failure frame: [[Auth] Login Failure] sets [loading] to false
    and [error] to the action's error, and leaves [currentUser] and
    [isAuthenticated] as they are, so that an authenticated user stays
    authenticated, with the same user. *)
Theorem loginFailure_frame :
  forall (s : Obj UserState) (e : string) (n : ref),
    let s' := fst (userReducer (Some s) (loginFailure e) n) in
    currentUser (fields s') = currentUser (fields s)
    /\ isAuthenticated (fields s') = isAuthenticated (fields s)
    /\ loading (fields s') = false
    /\ error (fields s') = Some e.
Proof.
  intros s e n. cbn. repeat split; reflexivity.
Qed.

(** ** Caches *)

#[export] Instance StrictEquivalence_Obj {A : Type} : StrictEquivalence (Obj A).
Proof.
  split; unfold strict_eq, StrictEq_Obj.
  - intros x. apply Nat.eqb_refl.
  - intros x y. apply Nat.eqb_sym.
  - intros x y z Hxy Hyz. apply Nat.eqb_eq in Hxy, Hyz. apply Nat.eqb_eq. congruence.
Qed.

#[export] Instance StrictEquivalence_option {A : Type} `{StrictEquivalence A} :
  StrictEquivalence (option A).
Proof.
  split.
  - intros [x|]; cbn; [apply strict_eq_refl | reflexivity].
  - intros [x|] [y|]; cbn; try reflexivity. apply strict_eq_sym.
  - intros [x|] [y|] [z|]; cbn; try discriminate; try reflexivity.
    apply strict_eq_trans.
Qed.

#[export] Instance StrictEquivalence_Value : StrictEquivalence Value.
Proof.
  split.
  - intros [s|u|b|s]; cbn.
    + apply strict_eq_refl.
    + apply strict_eq_refl.
    + apply Bool.eqb_reflx.
    + destruct s; cbn; [apply String.eqb_refl | reflexivity].
  - intros [s|u|b|s] [s'|u'|b'|s']; cbn; try reflexivity.
    + apply strict_eq_sym.
    + apply strict_eq_sym.
    + destruct b, b'; reflexivity.
    + destruct s, s'; cbn; try reflexivity. apply String.eqb_sym.
  - intros [s|u|b|s] [s'|u'|b'|s'] [s''|u''|b''|s'']; cbn; try discriminate.
    + apply strict_eq_trans.
    + apply strict_eq_trans.
    + destruct b, b', b''; cbn; congruence.
    + destruct s, s', s''; cbn; try discriminate; try reflexivity.
      unfold strict_eq, StrictEq_string. rewrite !String.eqb_eq. congruence.
Qed.

Section MemoFacts.

Context {A B : Type} `{StrictEquivalence A} (p : A -> B).

Lemma memoized_eq (m : Memo A B) (x : A) :
  memoized p m x = (out p m x, touch p m x).
Proof. unfold out, touch. destruct (memoized p m x); reflexivity. Qed.

Lemma touch_hit (m : Memo A B) (x : A) : hit m x = true -> touch p m x = m.
Proof.
  unfold hit, touch, memoized. destruct (cached m) as [[a b]|]; [|discriminate].
  intros ->. reflexivity.
Qed.

Lemma touch_miss (m : Memo A B) (x : A) :
  hit m x = false ->
  touch p m x = mkMemo (Some (x, p x)) (S (recomputations m)).
Proof.
  unfold hit, touch, memoized. destruct (cached m) as [[a b]|]; [|reflexivity].
  intros ->. reflexivity.
Qed.

Lemma hit_touch (m : Memo A B) (x : A) : hit (touch p m x) x = true.
Proof.
  destruct (hit m x) eqn:E.
  - rewrite touch_hit; assumption.
  - rewrite touch_miss by assumption. unfold hit. cbn. apply strict_eq_refl.
Qed.

Lemma count_touch (m : Memo A B) (x : A) :
  recomputations (touch p m x)
  = if hit m x then recomputations m else S (recomputations m).
Proof.
  destruct (hit m x) eqn:E.
  - rewrite touch_hit; auto.
  - rewrite touch_miss; auto.
Qed.

Lemma touch_touch (m : Memo A B) (x : A) : touch p (touch p m x) x = touch p m x.
Proof. apply touch_hit, hit_touch. Qed.

Lemma out_miss (m : Memo A B) (x : A) : hit m x = false -> out p m x = p x.
Proof.
  unfold hit, out, memoized. destruct (cached m) as [[a b]|]; [|reflexivity].
  intros ->. reflexivity.
Qed.

Lemma out_touch (m : Memo A B) (x : A) : out p (touch p m x) x = out p m x.
Proof.
  destruct (hit m x) eqn:E.
  - rewrite touch_hit by assumption. reflexivity.
  - rewrite (out_miss m x E), (touch_miss m x E).
    unfold out, memoized. cbn. rewrite strict_eq_refl. reflexivity.
Qed.

(** An input with the identity of the one the cache answers for is
    answered for as well, and one with another identity is not. *)
Lemma hit_same (m : Memo A B) (x y : A) :
  strict_eq y x = true -> hit m y = hit m x.
Proof.
  unfold hit. destruct (cached m) as [[a b]|]; [|reflexivity].
  intros Hyx. destruct (strict_eq x a) eqn:Hxa.
  - apply (strict_eq_trans y x a); assumption.
  - destruct (strict_eq y a) eqn:Hya; [|reflexivity].
    rewrite strict_eq_sym in Hyx.
    rewrite (strict_eq_trans x y a Hyx Hya) in Hxa. discriminate.
Qed.

Lemma hit_other (m : Memo A B) (x y : A) :
  strict_eq y x = false -> hit m x = true -> hit m y = false.
Proof.
  unfold hit. destruct (cached m) as [[a b]|]; [|discriminate].
  intros Hyx Hxa. destruct (strict_eq y a) eqn:Hya; [|reflexivity].
  rewrite strict_eq_sym in Hxa.
  rewrite (strict_eq_trans y a x Hya Hxa) in Hyx. discriminate.
Qed.

End MemoFacts.

Section SliceMemo.

Context {B : Type} (p : Obj UserState -> B).

Lemma memoOk_out (c : Obj UserState) (n : ref) (m : Memo (Obj UserState) B) :
  memoOk p c n m -> out p m c = p c.
Proof.
  unfold memoOk, out, memoized. destruct (cached m) as [[a b]|]; [|reflexivity].
  intros (Hb & _ & Hc). destruct (strict_eq c a) eqn:E; [|reflexivity].
  apply Nat.eqb_eq in E. cbn. rewrite Hb, (Hc (eq_sym E)). reflexivity.
Qed.

Lemma memoOk_touch (c : Obj UserState) (n : ref) (m : Memo (Obj UserState) B) :
  oid c < n -> memoOk p c n m -> memoOk p c n (touch p m c).
Proof.
  intros Hc Hm. destruct (hit m c) eqn:E.
  - rewrite touch_hit; assumption.
  - rewrite touch_miss by assumption. unfold memoOk. cbn. auto.
Qed.

(** The caches stay sound when the counter goes up and the slice is
    either kept or replaced by an object allocated since. *)
Lemma memoOk_later (c c' : Obj UserState) (n n' : ref) (m : Memo (Obj UserState) B) :
  memoOk p c n m -> n <= n' -> (c' = c \/ n <= oid c') -> memoOk p c' n' m.
Proof.
  unfold memoOk. destruct (cached m) as [[a b]|]; [|auto].
  intros (Hb & Ha & Hc) Hn [-> | Hc']; repeat split; auto; try lia.
Qed.

End SliceMemo.

Lemma graphOk_later (c c' : Obj UserState) (n n' : ref) (g : SelectorGraph) :
  graphOk c n g -> n <= n' -> (c' = c \/ n <= oid c') -> graphOk c' n' g.
Proof.
  intros (H1 & H2 & H3 & H4 & H5) Hn Hc.
  repeat split; eapply memoOk_later; eassumption.
Qed.

(** A read of a selector, with sound caches. *)
Lemma selectNode_eq (nd : Node) (r : Obj AppState) (n : ref) (g : SelectorGraph) :
  graphOk (user (fields r)) n g ->
  selectNode nd r g = (valueNode nd r g, touchNode nd r g).
Proof.
  intros (H1 & H2 & H3 & H4 & H5).
  pose proof (memoOk_out _ _ _ _ H1) as O1.
  pose proof (memoOk_out _ _ _ _ H2) as O2.
  pose proof (memoOk_out _ _ _ _ H3) as O3.
  pose proof (memoOk_out _ _ _ _ H4) as O4.
  pose proof (memoOk_out _ _ _ _ H5) as O5.
  destruct g as [m1 m2 m3 m4 m5 m6]. cbn in O1, O2, O3, O4, O5.
  destruct nd;
    cbv [selectNode selectUserState selectCurrentUser selectIsAuthenticated
         selectUserLoading selectUserError selectUserRole createSelector
         valueNode touchNode];
    cbn;
    repeat (rewrite memoized_eq; cbn);
    fold project_userState project_currentUser project_isAuthenticated
      project_userLoading project_userError project_userRole;
    rewrite ?O1; unfold project_userState in *;
    rewrite ?O2, ?O3, ?O4, ?O5; reflexivity.
Qed.

Lemma graphOk_touch (nd : Node) (r : Obj AppState) (n : ref) (g : SelectorGraph) :
  oid (user (fields r)) < n ->
  graphOk (user (fields r)) n g ->
  graphOk (user (fields r)) n (touchNode nd r g).
Proof.
  intros Hc (H1 & H2 & H3 & H4 & H5).
  destruct g as [m1 m2 m3 m4 m5 m6]; cbn in H1, H2, H3, H4, H5.
  destruct nd; cbn; repeat split; cbn; try assumption;
    apply memoOk_touch; assumption.
Qed.

(** What a selector returns does not depend on which selectors were read
    on the same state before. *)
Lemma valueNode_touch (nd nd' : Node) (r : Obj AppState) (g : SelectorGraph) :
  valueNode nd r (touchNode nd' r g) = valueNode nd r g.
Proof.
  destruct g as [m1 m2 m3 m4 m5 m6].
  destruct nd; try reflexivity.
  destruct nd'; cbn; try reflexivity.
  rewrite out_touch. reflexivity.
Qed.

Lemma valueTarget_touch (t t' : Target) (r : Obj AppState) (g : SelectorGraph) :
  valueTarget t r (touchTarget t' r g) = valueTarget t r g.
Proof.
  destruct t as [|nd]; [reflexivity|].
  destruct t' as [|nd']; [reflexivity|].
  apply valueNode_touch.
Qed.

Lemma select_eq (t : Target) (r : Obj AppState) (n : ref) (g : SelectorGraph) :
  graphOk (user (fields r)) n g ->
  select t r g = (valueTarget t r g, touchTarget t r g).
Proof.
  intros H. destruct t as [|nd]; [reflexivity|].
  cbn. eapply selectNode_eq; eassumption.
Qed.

Lemma graphOk_touchTarget (t : Target) (r : Obj AppState) (n : ref) (g : SelectorGraph) :
  oid (user (fields r)) < n ->
  graphOk (user (fields r)) n g ->
  graphOk (user (fields r)) n (touchTarget t r g).
Proof.
  destruct t; [auto|]. apply graphOk_touch.
Qed.

Lemma deliver_touch (t : Target) (r : Obj AppState) (g : SelectorGraph) (sub : Subscriber) :
  deliver r (touchTarget t r g) sub = deliver r g sub.
Proof. unfold deliver. rewrite valueTarget_touch. reflexivity. Qed.

Arguments select : simpl never.
Arguments touchTarget : simpl never.
Arguments valueTarget : simpl never.

(** A notification round, with sound caches. *)
Lemma notify_eq (r : Obj AppState) (n : ref) (subs : list Subscriber) :
  oid (user (fields r)) < n ->
  forall g : SelectorGraph,
    graphOk (user (fields r)) n g ->
    notify r subs g = (map (deliver r g) subs, touchAll r subs g).
Proof.
  intros Hc. induction subs as [|sub rest IH]; intros g Hg; cbn [notify map].
  - reflexivity.
  - rewrite (select_eq _ _ _ _ Hg).
    rewrite IH by (apply graphOk_touchTarget; assumption).
    unfold touchAll. cbn [fold_left].
    f_equal. f_equal.
    apply map_ext. intros s. apply deliver_touch.
Qed.

Lemma graphOk_touchAll (r : Obj AppState) (n : ref) (subs : list Subscriber) :
  oid (user (fields r)) < n ->
  forall g : SelectorGraph,
    graphOk (user (fields r)) n g ->
    graphOk (user (fields r)) n (touchAll r subs g).
Proof.
  intros Hc. unfold touchAll.
  induction subs as [|sub rest IH]; intros g Hg; cbn [fold_left].
  - exact Hg.
  - apply IH. apply graphOk_touchTarget; assumption.
Qed.

Lemma valueTarget_touchAll (t : Target) (r : Obj AppState) (subs : list Subscriber) :
  forall g : SelectorGraph,
    valueTarget t r (touchAll r subs g) = valueTarget t r g.
Proof.
  unfold touchAll.
  induction subs as [|sub rest IH]; intros g; cbn [fold_left].
  - reflexivity.
  - rewrite IH. apply valueTarget_touch.
Qed.

Lemma subscribersOk_touch (t : Target) (r : Obj AppState) (g : SelectorGraph)
  (subs : list Subscriber) :
  subscribersOk r g subs -> subscribersOk r (touchTarget t r g) subs.
Proof.
  unfold subscribersOk. intros H. eapply Forall_impl; [|exact H].
  intros sub Hs. cbn beta in *. rewrite valueTarget_touch. exact Hs.
Qed.

Lemma subscribersOk_deliver (r : Obj AppState) (g g' : SelectorGraph)
  (subs : list Subscriber) :
  (forall t, valueTarget t r g' = valueTarget t r g) ->
  subscribersOk r g' (map (deliver r g) subs).
Proof.
  intros Hv. unfold subscribersOk. apply Forall_map, Forall_forall.
  intros sub _. rewrite Hv. unfold deliver.
  destruct (strict_eq (valueTarget (target sub) r g) (lastDelivered sub)) eqn:E.
  - exact E.
  - cbn. apply strict_eq_refl.
Qed.

(** Subscriptions that are up to date are left alone. *)
Lemma deliver_ok (r : Obj AppState) (g : SelectorGraph) (subs : list Subscriber) :
  subscribersOk r g subs -> map (deliver r g) subs = subs.
Proof.
  unfold subscribersOk. induction 1 as [|sub rest Hs _ IH]; cbn [map].
  - reflexivity.
  - rewrite IH. unfold deliver. rewrite Hs. reflexivity.
Qed.

Arguments rootReducer : simpl never.

Ltac split_storeOk :=
  unfold storeOk; cbn [snd dispatching state fresh graph subscribers];
  split; [|split; [|split; [|split]]].

(** A dispatch on a store that satisfies the invariant. *)
Lemma dispatch_eq (a : Action) (st : Store) :
  storeOk st ->
  dispatch a st = Ok (commit a st) /\ storeOk (commit a st).
Proof.
  intros (Hd & Hr & Hc & Hg & Hs).
  unfold dispatch, commit. rewrite Hd.
  pose proof (rootReducer_eq (state st) a (fresh st) Hc) as E.
  destruct (userReducer_cases (user (fields (state st))) a (fresh st))
    as [(Hreg & Ho & Hn) | (Hreg & He)]; rewrite Hreg in E; rewrite E;
    cbn [fst snd].
  - set (s' := fst (userReducer (Some (user (fields (state st)))) a (fresh st))) in *.
    set (r' := mkObj (S (fresh st)) (mkAppState s')).
    assert (Hc' : oid (user (fields r')) < S (S (fresh st))) by (cbn; lia).
    assert (Hg' : graphOk (user (fields r')) (S (S (fresh st))) (graph st)).
    { eapply graphOk_later; [exact Hg | lia | right; cbn; lia]. }
    rewrite (notify_eq r' _ _ Hc' _ Hg').
    split; [reflexivity|].
    split_storeOk.
    + reflexivity.
    + cbn. lia.
    + exact Hc'.
    + apply graphOk_touchAll; assumption.
    + apply subscribersOk_deliver. intros t. apply valueTarget_touchAll.
  - rewrite (notify_eq (state st) _ _ Hc _ Hg).
    split; [reflexivity|].
    split_storeOk; try assumption.
    + reflexivity.
    + apply graphOk_touchAll; assumption.
    + apply subscribersOk_deliver. intros t. apply valueTarget_touchAll.
Qed.

Lemma storeOk_subscribe (t : Target) (st : Store) :
  storeOk st -> storeOk (subscribe t st).
Proof.
  intros (Hd & Hr & Hc & Hg & Hs). unfold subscribe.
  rewrite (select_eq _ _ _ _ Hg).
  split_storeOk; try assumption.
  - apply graphOk_touchTarget; assumption.
  - unfold subscribersOk. apply Forall_app. split.
    + apply subscribersOk_touch. exact Hs.
    + constructor; [|constructor]. cbn [target lastDelivered].
      rewrite valueTarget_touch. apply strict_eq_refl.
Qed.

Lemma read_eq (nd : Node) (st : Store) :
  storeOk st ->
  read (selectNode nd) st
  = (valueNode nd (state st) (graph st),
     mkStore (state st) (fresh st) (touchNode nd (state st) (graph st))
       (subscribers st) (dispatching st))
  /\ storeOk (snd (read (selectNode nd) st)).
Proof.
  intros (Hd & Hr & Hc & Hg & Hs). unfold read.
  rewrite (selectNode_eq _ _ _ _ Hg).
  split; [reflexivity|].
  split_storeOk; try assumption.
  - apply graphOk_touch; assumption.
  - apply (subscribersOk_touch (selector nd)). exact Hs.
Qed.

Lemma storeOk_alloc (st : Store) :
  storeOk st -> storeOk (with_fresh (S (fresh st)) st).
Proof.
  intros (Hd & Hr & Hc & Hg & Hs).
  unfold with_fresh. split_storeOk; try assumption; try lia.
  eapply graphOk_later; [exact Hg | lia | left; reflexivity].
Qed.

Lemma storeOk_initial : storeOk initialStore.
Proof.
  rewrite initialStore_eq. split_storeOk.
  - reflexivity.
  - cbn. lia.
  - cbn. lia.
  - repeat split.
  - constructor.
Qed.

(** Every store the application reaches satisfies the invariant. *)
Lemma reachable_ok (st : Store) : reachable st -> storeOk st.
Proof.
  induction 1 as [| t st _ IH | a st st' _ IH Hd | nd st _ IH | st _ IH].
  - apply storeOk_initial.
  - apply storeOk_subscribe, IH.
  - destruct (dispatch_eq a st IH) as [E Hok]. rewrite E in Hd.
    injection Hd as <-. exact Hok.
  - apply read_eq, IH.
  - apply storeOk_alloc, IH.
Qed.

(** ** Dispatch *)

Lemma commit_unregistered (a : Action) (st : Store) :
  storeOk st ->
  UserActions.registered (type a) = false ->
  state (commit a st) = state st
  /\ fresh (commit a st) = fresh st
  /\ subscribers (commit a st) = subscribers st.
Proof.
  intros (Hd & Hr & Hc & Hg & Hs) Hreg. unfold commit.
  rewrite (rootReducer_eq _ _ _ Hc), Hreg.
  cbn [fst snd state fresh subscribers].
  repeat split. apply deliver_ok. exact Hs.
Qed.

Lemma commit_registered (a : Action) (st : Store) :
  storeOk st ->
  UserActions.registered (type a) = true ->
  state (commit a st)
  = mkObj (S (fresh st))
      (mkAppState (fst (userReducer (Some (user (fields (state st)))) a (fresh st))))
  /\ fresh (commit a st) = S (S (fresh st))
  /\ oid (fst (userReducer (Some (user (fields (state st)))) a (fresh st))) = fresh st.
Proof.
  intros (Hd & Hr & Hc & Hg & Hs) Hreg. unfold commit.
  rewrite (rootReducer_eq _ _ _ Hc), Hreg.
  cbn [fst snd state fresh subscribers].
  repeat split.
  destruct (userReducer_cases (user (fields (state st))) a (fresh st))
    as [(_ & Ho & _) | (Hreg' & _)]; [exact Ho | congruence].
Qed.

(** C2. Unrecognized-action no-op: for an action whose kind is none of the
    seven, [userReducer] returns the state it was given, the same object;
    a dispatch on a store the application can be in does not fail, leaves
    the state object in place, and leaves every subscription as it was, so
    that no callback runs. *)
Theorem unrecognized_action_noop :
  forall (st : Store) (a : Action),
    reachable st ->
    UserActions.registered (type a) = false ->
    (forall (s : Obj UserState) (n : ref), userReducer (Some s) a n = (s, n))
    /\ exists st' : Store,
        dispatch a st = Ok st'
        /\ state st' = state st
        /\ subscribers st' = subscribers st
        /\ totalNotifications st' = totalNotifications st.
Proof.
  intros st a Hreach Hreg. split.
  - intros s n.
    destruct (userReducer_cases s a n) as [(Hreg' & _) | (_ & E)];
      [congruence | exact E].
  - pose proof (reachable_ok st Hreach) as Hok.
    destruct (dispatch_eq a st Hok) as [E _].
    destruct (commit_unregistered a st Hok Hreg) as (Hs & _ & Hsub).
    exists (commit a st). repeat split; try assumption.
    unfold totalNotifications. rewrite Hsub. reflexivity.
Qed.

Lemma unrecognized_action_noop_witness :
  let st := subscribe (selector userRole_node) (subscribe slice_user initialStore) in
  let a := other "[Cart] Add Item" eq_refl in
  reachable st
  /\ UserActions.registered (type a) = false
  /\ (forall (s : Obj UserState) (n : ref), userReducer (Some s) a n = (s, n))
  /\ exists st' : Store,
      dispatch a st = Ok st'
      /\ state st' = state st
      /\ subscribers st' = subscribers st
      /\ totalNotifications st' = totalNotifications st.
Proof.
  intros st a.
  assert (Hr : reachable st) by (apply reach_subscribe, reach_subscribe, reach_init).
  assert (Hk : UserActions.registered (type a) = false) by reflexivity.
  split; [exact Hr | split; [exact Hk |]].
  exact (unrecognized_action_noop st a Hr Hk).
Defined.

(** C3, counterexample. After one [[Auth] Login], [loading] is true and
    [error] is null; a second [[Auth] Login] leaves every field as it is,
    and yet the slice is a new object and the state is a new object. *)
Lemma login_while_loading_new_state :
  let st1 := commit (login "a" "b") initialStore in
  let st2 := commit (login "a" "b") st1 in
  dispatch (login "a" "b") initialStore = Ok st1
  /\ loading (fields (user (fields (state st1)))) = true
  /\ error (fields (user (fields (state st1)))) = None
  /\ dispatch (login "a" "b") st1 = Ok st2
  /\ shallowEqual (user (fields (state st2))) (user (fields (state st1))) = true
  /\ strict_eq (user (fields (state st2))) (user (fields (state st1))) = false
  /\ strict_eq (state st2) (state st1) = false.
Proof. vm_compute. repeat split. Qed.

(** C3 (as the code has it). The state object is kept exactly when the
    slice reducer returns the slice it was given, the same object, which it
    does for the actions without a handler and for no other: a handler that
    runs builds a new slice object, whatever the fields were, and the store
    then builds a new state object around it. *)
Theorem unchanged_reference_same_state :
  forall (st : Store) (a : Action),
    reachable st ->
    let slice := user (fields (state st)) in
    let slice' := fst (userReducer (Some slice) a (fresh st)) in
    strict_eq slice' slice = negb (UserActions.registered (type a))
    /\ exists st' : Store,
        dispatch a st = Ok st'
        /\ if strict_eq slice' slice
           then state st' = state st
           else user (fields (state st')) = slice'
                /\ strict_eq (state st') (state st) = false.
Proof.
  intros st a Hreach slice slice'.
  pose proof (reachable_ok st Hreach) as Hok.
  destruct (dispatch_eq a st Hok) as [E _].
  pose proof Hok as (Hd & Hr & Hc & Hg & Hs).
  destruct (UserActions.registered (type a)) eqn:Hreg.
  - destruct (commit_registered a st Hok Hreg) as (Hst & _ & Ho).
    assert (Hne : strict_eq slice' slice = false).
    { apply strict_eq_Obj_fresh. subst slice slice'. rewrite Ho. exact Hc. }
    split; [exact Hne|].
    exists (commit a st). split; [exact E|]. rewrite Hne, Hst. split.
    + reflexivity.
    + apply strict_eq_Obj_fresh. cbn. lia.
  - destruct (commit_unregistered a st Hok Hreg) as (Hst & _ & _).
    assert (He : slice' = slice).
    { subst slice'.
      destruct (userReducer_cases slice a (fresh st)) as [(Hreg' & _) | (_ & E')];
        [congruence | rewrite E'; reflexivity]. }
    rewrite He, strict_eq_Obj_refl.
    split; [reflexivity|].
    exists (commit a st). split; assumption.
Qed.

Lemma unchanged_reference_same_state_witness :
  let st := commit (login "a" "b") initialStore in
  let a := login "a" "b" in
  let slice := user (fields (state st)) in
  let slice' := fst (userReducer (Some slice) a (fresh st)) in
  reachable st
  /\ strict_eq slice' slice = negb (UserActions.registered (type a))
  /\ exists st' : Store,
      dispatch a st = Ok st'
      /\ if strict_eq slice' slice
         then state st' = state st
         else user (fields (state st')) = slice'
              /\ strict_eq (state st') (state st) = false.
Proof.
  intros st a slice slice'.
  assert (Hr : reachable st).
  { apply (reach_dispatch (login "a" "b") initialStore); [apply reach_init | reflexivity]. }
  split; [exact Hr|].
  exact (unchanged_reference_same_state st a Hr).
Defined.

(** ** Selectors *)

Lemma touchNode_self (n : Node) (r : Obj AppState) (g : SelectorGraph) :
  nodeRead n r g (touchNode n r g).
Proof.
  destruct g as [m1 m2 m3 m4 m5 m6].
  destruct n; split; cbn; first [apply hit_touch | apply count_touch].
Qed.

Lemma touchNode_node (n n' : Node) (r : Obj AppState) (g : SelectorGraph) :
  nodeStep n r g (touchNode n' r g).
Proof.
  destruct g as [m1 m2 m3 m4 m5 m6].
  destruct n, n';
    first [ left; split; [intros r0|]; reflexivity
          | right; split; cbn; first [apply hit_touch | apply count_touch] ].
Qed.

Lemma nodeStep_refl (n : Node) (r : Obj AppState) (g : SelectorGraph) :
  nodeStep n r g g.
Proof. left. split; reflexivity. Qed.

Lemma nodeStep_trans (n : Node) (r : Obj AppState) (g g1 g2 : SelectorGraph) :
  nodeStep n r g g1 -> nodeStep n r g1 g2 -> nodeStep n r g g2.
Proof.
  intros [[Hh1 Hc1] | [Hh1 Hc1]] [[Hh2 Hc2] | [Hh2 Hc2]].
  - left. split; [intros r0; rewrite Hh2; apply Hh1 | congruence].
  - right. split; [exact Hh2 | rewrite Hc2, Hh1, Hc1; reflexivity].
  - right. split; [rewrite Hh2; exact Hh1 | congruence].
  - right. split; [exact Hh2 | rewrite Hc2, Hh1; exact Hc1].
Qed.

Lemma nodeStep_then_read (n : Node) (r : Obj AppState) (g g1 g2 : SelectorGraph) :
  nodeStep n r g g1 -> nodeRead n r g1 g2 -> nodeRead n r g g2.
Proof.
  intros [[Hh1 Hc1] | [Hh1 Hc1]] [Hh2 Hc2]; split; try exact Hh2.
  - rewrite Hc2, Hh1, Hc1. reflexivity.
  - rewrite Hc2, Hh1. exact Hc1.
Qed.

(** A cache that answers for the state is left alone by every read on it. *)
Lemma nodeStep_hit (n : Node) (r : Obj AppState) (g g' : SelectorGraph) :
  hitNode n r g = true -> nodeStep n r g g' ->
  hitNode n r g' = true /\ countOf n g' = countOf n g.
Proof.
  intros Hh [[Hh' Hc] | [Hh' Hc]].
  - rewrite Hh'. auto.
  - rewrite Hh in Hc. auto.
Qed.

Lemma touchTarget_node (n : Node) (t : Target) (r : Obj AppState) (g : SelectorGraph) :
  nodeStep n r g (touchTarget t r g).
Proof.
  destruct t as [|n']; [apply nodeStep_refl | apply touchNode_node].
Qed.

Lemma touchAll_node (n : Node) (r : Obj AppState) (subs : list Subscriber) :
  forall g : SelectorGraph, nodeStep n r g (touchAll r subs g).
Proof.
  unfold touchAll.
  induction subs as [|sub rest IH]; intros g; cbn [fold_left].
  - apply nodeStep_refl.
  - eapply nodeStep_trans; [apply touchTarget_node | apply IH].
Qed.

(** The cache of a selector follows the identity of its dependency. *)
Lemma hitNode_same (n : Node) (r r' : Obj AppState) (g : SelectorGraph) :
  strict_eq (dependency n r') (dependency n r) = true ->
  hitNode n r' g = hitNode n r g.
Proof.
  destruct n; cbn; intros H; apply hit_same; exact H.
Qed.

Lemma hitNode_other (n : Node) (r r' : Obj AppState) (g : SelectorGraph) :
  strict_eq (dependency n r') (dependency n r) = false ->
  hitNode n r g = true -> hitNode n r' g = false.
Proof.
  destruct n; cbn; intros H; apply hit_other; exact H.
Qed.

Lemma read_node (n : Node) (st : Store) :
  storeOk st ->
  let st' := snd (read (selectNode n) st) in
  storeOk st' /\ state st' = state st
  /\ nodeRead n (state st) (graph st) (graph st').
Proof.
  intros Hok. destruct (read_eq n st Hok) as [E Hok'].
  cbn zeta. split; [exact Hok'|]. rewrite E. cbn [snd state graph].
  split; [reflexivity | apply touchNode_self].
Qed.

Lemma read_other_node (n m : Node) (st : Store) :
  storeOk st ->
  let st' := snd (read (selectNode m) st) in
  storeOk st' /\ state st' = state st
  /\ nodeStep n (state st) (graph st) (graph st').
Proof.
  intros Hok. destruct (read_eq m st Hok) as [E Hok'].
  cbn zeta. split; [exact Hok'|]. rewrite E. cbn [snd state graph].
  split; [reflexivity | apply touchNode_node].
Qed.

Lemma reads_node (n : Node) (k : nat) :
  forall st : Store,
    storeOk st ->
    nodeRead n (state st) (graph st) (graph (reads n (S k) st)).
Proof.
  induction k as [|k IH]; intros st Hok.
  - cbn [reads]. apply read_node. exact Hok.
  - change (reads n (S (S k)) st) with (reads n (S k) (snd (read (selectNode n) st))).
    destruct (read_node n st Hok) as (Hok' & Hst & Hrd).
    specialize (IH _ Hok'). rewrite Hst in IH.
    eapply nodeStep_then_read; [right; exact Hrd | exact IH].
Qed.

Lemma commit_node (n : Node) (a : Action) (st : Store) :
  nodeStep n (state (commit a st)) (graph st) (graph (commit a st)).
Proof. unfold commit. cbn [state graph]. apply touchAll_node. Qed.

Lemma uses_keep_count (n : Node) (us : list Use) :
  forall st st2 : Store,
    storeOk st ->
    hitNode n (state st) (graph st) = true ->
    keeps n us st = true ->
    uses us st = Ok st2 ->
    countOf n (graph st2) = countOf n (graph st).
Proof.
  induction us as [|[a|m] rest IH]; intros st st2 Hok Hhit Hk Hu; cbn [uses keeps] in *.
  - injection Hu as <-. reflexivity.
  - destruct (dispatch_eq a st Hok) as [E Hok']. rewrite E in Hu, Hk.
    apply andb_prop in Hk. destruct Hk as [Hdep Hk].
    assert (Hhit' : hitNode n (state (commit a st)) (graph st) = true).
    { rewrite (hitNode_same _ _ _ _ Hdep). exact Hhit. }
    destruct (nodeStep_hit _ _ _ _ Hhit' (commit_node n a st)) as [Hh Hc].
    rewrite (IH _ _ Hok' Hh Hk Hu). exact Hc.
  - destruct (read_other_node n m st Hok) as (Hok' & Hst & Hstep).
    destruct (nodeStep_hit _ _ _ _ Hhit Hstep) as [Hh Hc].
    rewrite <- Hst in Hh.
    rewrite (IH _ _ Hok' Hh Hk Hu). exact Hc.
Qed.

(** C7. Selector memoization: once a selector has been read, whatever is
    dispatched and read afterwards, as long as no dispatch changes the
    selector's dependency (by [===]), its projection function is not called
    again; and after a dispatch that changes the dependency, one or more
    reads call it exactly once. *)
Theorem selector_memoization :
  forall (n : Node) (st : Store),
    reachable st ->
    let st1 := snd (read (selectNode n) st) in
    (forall (us : list Use) (st2 : Store),
        keeps n us st1 = true ->
        uses us st1 = Ok st2 ->
        countOf n (graph st2) = countOf n (graph st1))
    /\ (forall (a : Action) (st2 : Store) (k : nat),
           dispatch a st1 = Ok st2 ->
           strict_eq (dependency n (state st2)) (dependency n (state st1)) = false ->
           countOf n (graph (reads n (S k) st2)) = S (countOf n (graph st1))).
Proof.
  intros n st Hreach st1.
  pose proof (reachable_ok st Hreach) as Hok.
  destruct (read_node n st Hok) as (Hok1 & Hst1 & [Hhit1 _]).
  fold st1 in Hok1, Hst1, Hhit1. rewrite <- Hst1 in Hhit1.
  split.
  - intros us st2 Hk Hu. eapply uses_keep_count; eassumption.
  - intros a st2 k Hd Hdep.
    destruct (dispatch_eq a st1 Hok1) as [E Hok2]. rewrite E in Hd.
    injection Hd as <-.
    pose proof (hitNode_other _ _ _ _ Hdep Hhit1) as Hmiss.
    pose proof (nodeStep_then_read _ _ _ _ _
                  (commit_node n a st1) (reads_node n k _ Hok2)) as [_ Hc].
    rewrite Hmiss in Hc. exact Hc.
Qed.

Lemma selector_memoization_witness :
  let alice := mkObj 20 (mkUser "1" "Alice" "alice@example.com" "admin") in
  let st := subscribe slice_user initialStore in
  let st1 := snd (read (selectNode userRole_node) st) in
  let us := [ use_dispatch (login "a" "b"); use_read userRole_node;
              use_dispatch (loginFailure "Invalid credentials");
              use_read currentUser_node; use_read userRole_node ] in
  let st2 := commit (loginSuccess alice) st1 in
  reachable st
  /\ keeps userRole_node us st1 = true
  /\ (exists st' : Store,
         uses us st1 = Ok st'
         /\ countOf userRole_node (graph st') = countOf userRole_node (graph st1))
  /\ dispatch (loginSuccess alice) st1 = Ok st2
  /\ strict_eq (dependency userRole_node (state st2))
       (dependency userRole_node (state st1)) = false
  /\ countOf userRole_node (graph (reads userRole_node 3 st2))
     = S (countOf userRole_node (graph st1)).
Proof.
  intros alice st st1 us st2.
  assert (Hr : reachable st) by (apply reach_subscribe, reach_init).
  assert (Hk : keeps userRole_node us st1 = true) by (vm_compute; reflexivity).
  assert (Hd : dispatch (loginSuccess alice) st1 = Ok st2) by (vm_compute; reflexivity).
  assert (Hc : strict_eq (dependency userRole_node (state st2))
                 (dependency userRole_node (state st1)) = false)
    by (vm_compute; reflexivity).
  destruct (selector_memoization userRole_node st Hr) as [H1 H2].
  split; [exact Hr | split; [exact Hk | split; [| split; [exact Hd | split; [exact Hc|]]]]].
  - destruct (uses us st1) as [st'|f] eqn:Hu.
    + exists st'. split; [reflexivity | exact (H1 us st' Hk Hu)].
    + vm_compute in Hu. discriminate Hu.
  - exact (H2 (loginSuccess alice) st2 2 Hd Hc).
Defined.

(** ** Effects *)

Lemma storeOk_with_fresh (n : ref) (st : Store) :
  storeOk st -> fresh st <= n -> storeOk (with_fresh n st).
Proof.
  intros (Hd & Hr & Hc & Hg & Hs) Hn.
  unfold with_fresh. split_storeOk; try assumption; try lia.
  eapply graphOk_later; [exact Hg | exact Hn | left; reflexivity].
Qed.

(** The inner pipes never fail: an error of the service call becomes an
    action. *)
Lemma login_inner_completes (call : Observable (Obj User)) :
  ending (UserEffects.login_inner call) = completed.
Proof.
  unfold UserEffects.login_inner, Rx.catchError, Rx.map. cbn.
  destruct (ending call); reflexivity.
Qed.

Lemma logout_inner_completes (call : Observable unit) :
  ending (UserEffects.logout_inner call) = completed.
Proof.
  unfold UserEffects.logout_inner, Rx.catchError, Rx.map. cbn.
  destruct (ending call); reflexivity.
Qed.

Lemma getUserProfile_inner_completes (call : Observable (Obj User)) :
  ending (UserEffects.getUserProfile_inner call) = completed.
Proof.
  unfold UserEffects.getUserProfile_inner, Rx.catchError, Rx.map. cbn.
  destruct (ending call); reflexivity.
Qed.

Arguments dispatch : simpl never.
Arguments commit : simpl never.

(** One action on the bus that no effect answers with another action. *)
Lemma run_bus_last (k : nat) (a : Action) (sys : System)
  (fx' : Effects) (effs : list SideEffect) :
  storeOk (store sys) ->
  observe a (effects sys) = (fx', [], effs) ->
  run_bus (S k) [a] sys
  = Ok (mkSystem (commit a (store sys)) fx' (dispatched sys ++ [a]) (done sys ++ effs)).
Proof.
  intros Hok Hobs. cbn [run_bus].
  destruct (dispatch_eq a (store sys) Hok) as [E _]. rewrite E, Hobs.
  cbn [app]. destruct k; reflexivity.
Qed.

Lemma observe_loginFailure (e : string) (fx : Effects) :
  observe (loginFailure e) fx
  = (mkEffects (login_fx fx) (loginSuccess_fx fx) (logout_fx fx)
       (logoutSuccess_fx fx) (getUserProfile_fx fx) (nextCall fx), [], []).
Proof.
  unfold observe, ofType. cbn. rewrite !andb_false_r. reflexivity.
Qed.

Lemma observe_loginSuccess (u : Obj User) (fx : Effects) :
  observe (loginSuccess u) fx
  = (mkEffects (login_fx fx) (loginSuccess_fx fx) (logout_fx fx)
       (logoutSuccess_fx fx) (getUserProfile_fx fx) (nextCall fx), [],
     if alive (loginSuccess_fx fx) then [navigate ["/dashboard"]] else []).
Proof.
  unfold observe, ofType. cbn. rewrite !andb_false_r, andb_true_r.
  destruct (alive (loginSuccess_fx fx)); reflexivity.
Qed.

Lemma observe_login (u p : string) (fx : Effects) :
  alive (login_fx fx) = true ->
  observe (login u p) fx
  = (mkEffects (subscribe_inner (nextCall fx) (login_fx fx)) (loginSuccess_fx fx)
       (logout_fx fx) (logoutSuccess_fx fx) (getUserProfile_fx fx)
       (S (nextCall fx)), [], []).
Proof.
  intros Ha. unfold observe, ofType. cbn. rewrite Ha, !andb_false_r. reflexivity.
Qed.

Lemma observe_logout (fx : Effects) :
  alive (logout_fx fx) = true ->
  observe logout fx
  = (mkEffects (login_fx fx) (loginSuccess_fx fx) (logout_fx fx)
       (logoutSuccess_fx fx) (getUserProfile_fx fx) (nextCall fx),
     [logoutSuccess], [removeItem AuthService.tokenKey]).
Proof.
  intros Ha. unfold observe, ofType. cbn. rewrite Ha, !andb_false_r. reflexivity.
Qed.

Lemma observe_logoutSuccess (fx : Effects) :
  observe logoutSuccess fx
  = (mkEffects (login_fx fx) (loginSuccess_fx fx) (logout_fx fx)
       (logoutSuccess_fx fx) (getUserProfile_fx fx) (nextCall fx), [],
     if alive (logoutSuccess_fx fx) then [navigate ["/login"]] else []).
Proof.
  unfold observe, ofType. cbn. rewrite !andb_false_r, andb_true_r.
  destruct (alive (logoutSuccess_fx fx)); reflexivity.
Qed.

Lemma active_call (call : nat) (e : EffectState) :
  In call (active e) -> existsb (Nat.eqb call) (active e) = true.
Proof.
  intros H. apply existsb_exists. exists call. split; [exact H | apply Nat.eqb_refl].
Qed.

(** The login exchange fails. *)
Lemma step_login_error (k : nat) (call : nat) (e : JsError) (sys : System) :
  storeOk (store sys) ->
  alive (login_fx (effects sys)) = true ->
  In call (active (login_fx (effects sys))) ->
  let fx := effects sys in
  let failure := loginFailure "Invalid credentials" in
  step (S k) (LoginResponse call (HttpError e)) sys
  = Ok (mkSystem (commit failure (with_fresh (fresh (store sys)) (store sys)))
          (mkEffects (inner_ended call completed (login_fx fx)) (loginSuccess_fx fx)
             (logout_fx fx) (logoutSuccess_fx fx) (getUserProfile_fx fx) (nextCall fx))
          (dispatched sys ++ [failure]) (done sys)).
Proof.
  intros Hok Ha Hin fx failure. subst fx failure. unfold step.
  rewrite Ha, (active_call _ _ Hin). cbn [andb].
  cbn [UserEffects.login_inner AuthService.login Rx.throwError Rx.tap Rx.map
       Rx.catchError emitted ending performed List.map app message].
  etransitivity.
  - apply run_bus_last.
    + apply storeOk_with_fresh; [exact Hok | apply Nat.le_refl].
    + cbn [effects]. rewrite observe_loginFailure. reflexivity.
  - cbn [store effects dispatched done]. rewrite !app_nil_r. reflexivity.
Qed.

(** The login exchange succeeds. *)
Lemma step_login_ok (k : nat) (call : nat) (tok : string) (u : User) (sys : System) :
  storeOk (store sys) ->
  alive (login_fx (effects sys)) = true ->
  In call (active (login_fx (effects sys))) ->
  let fx := effects sys in
  let success := loginSuccess (mkObj (fresh (store sys)) u) in
  step (S k) (LoginResponse call (HttpOk (tok, u))) sys
  = Ok (mkSystem (commit success (with_fresh (S (fresh (store sys))) (store sys)))
          (mkEffects (inner_ended call completed (login_fx fx)) (loginSuccess_fx fx)
             (logout_fx fx) (logoutSuccess_fx fx) (getUserProfile_fx fx) (nextCall fx))
          (dispatched sys ++ [success])
          ((done sys ++ [setItem AuthService.tokenKey tok])
             ++ (if alive (loginSuccess_fx fx) then [navigate ["/dashboard"]] else []))).
Proof.
  intros Hok Ha Hin fx success. subst fx success. unfold step.
  rewrite Ha, (active_call _ _ Hin). cbn [andb new].
  cbn [UserEffects.login_inner AuthService.login Rx.of_ Rx.tap Rx.map
       Rx.catchError emitted ending performed List.map app
       AuthService.token AuthService.body_user].
  etransitivity.
  - apply run_bus_last.
    + apply storeOk_with_fresh; [exact Hok | lia].
    + cbn [effects]. rewrite observe_loginSuccess. reflexivity.
  - reflexivity.
Qed.

(** A component asks for a login. *)
Lemma step_login (k : nat) (u p : string) (sys : System) :
  storeOk (store sys) ->
  alive (login_fx (effects sys)) = true ->
  let fx := effects sys in
  step (S k) (Dispatch (login u p)) sys
  = Ok (mkSystem (commit (login u p) (store sys))
          (mkEffects (subscribe_inner (nextCall fx) (login_fx fx)) (loginSuccess_fx fx)
             (logout_fx fx) (logoutSuccess_fx fx) (getUserProfile_fx fx)
             (S (nextCall fx)))
          (dispatched sys ++ [login u p]) (done sys)).
Proof.
  intros Hok Ha fx. subst fx. unfold step.
  etransitivity.
  - apply run_bus_last; [exact Hok | apply observe_login; exact Ha].
  - rewrite app_nil_r. reflexivity.
Qed.

(** A component asks for a logout. *)
Lemma step_logout (k : nat) (sys : System) :
  storeOk (store sys) ->
  alive (logout_fx (effects sys)) = true ->
  let fx := effects sys in
  step (S (S k)) (Dispatch logout) sys
  = Ok (mkSystem (commit logoutSuccess (commit logout (store sys)))
          (mkEffects (login_fx fx) (loginSuccess_fx fx) (logout_fx fx)
             (logoutSuccess_fx fx) (getUserProfile_fx fx) (nextCall fx))
          ((dispatched sys ++ [logout]) ++ [logoutSuccess])
          ((done sys ++ [removeItem AuthService.tokenKey])
             ++ (if alive (logoutSuccess_fx fx) then [navigate ["/login"]] else []))).
Proof.
  intros Hok Ha fx. subst fx. unfold step. cbn [run_bus].
  destruct (dispatch_eq logout (store sys) Hok) as [E Hok']. rewrite E.
  rewrite (observe_logout _ Ha). cbn [app].
  etransitivity.
  - apply run_bus_last.
    + exact Hok'.
    + cbn [effects]. rewrite observe_logoutSuccess. reflexivity.
  - reflexivity.
Qed.

Lemma step_login_invariants (k : nat) (u p : string) (sys : System) :
  storeOk (store sys) ->
  alive (login_fx (effects sys)) = true ->
  exists sys1 : System,
    step (S k) (Dispatch (login u p)) sys = Ok sys1
    /\ storeOk (store sys1)
    /\ alive (login_fx (effects sys1)) = true
    /\ active (login_fx (effects sys1))
       = active (login_fx (effects sys)) ++ [nextCall (effects sys)]
    /\ nextCall (effects sys1) = S (nextCall (effects sys))
    /\ dispatched sys1 = dispatched sys ++ [login u p].
Proof.
  intros Hok Ha. eexists. split; [apply step_login; assumption|].
  cbn [store effects dispatched login_fx nextCall subscribe_inner alive active].
  split; [apply dispatch_eq; exact Hok|].
  repeat split; assumption.
Qed.

Lemma commit_loginSuccess (o : Obj User) (st : Store) :
  storeOk st ->
  fields (user (fields (state (commit (loginSuccess o) st))))
  = mkUserState (Some o) true false None.
Proof.
  intros Hok.
  destruct (commit_registered (loginSuccess o) st Hok eq_refl) as (E & _ & _).
  rewrite E, userReducer_eq. reflexivity.
Qed.

Lemma step_login_ok_invariants (k : nat) (call : nat) (tok : string) (u : User)
  (sys : System) :
  storeOk (store sys) ->
  alive (login_fx (effects sys)) = true ->
  In call (active (login_fx (effects sys))) ->
  exists (sys1 : System) (o : Obj User),
    step (S k) (LoginResponse call (HttpOk (tok, u))) sys = Ok sys1
    /\ fields o = u
    /\ storeOk (store sys1)
    /\ alive (login_fx (effects sys1)) = true
    /\ active (login_fx (effects sys1))
       = filter (fun c => negb (Nat.eqb c call)) (active (login_fx (effects sys)))
    /\ dispatched sys1 = dispatched sys ++ [loginSuccess o]
    /\ fields (user (fields (state (store sys1)))) = mkUserState (Some o) true false None.
Proof.
  intros Hok Ha Hin.
  assert (Hok' : storeOk (with_fresh (S (fresh (store sys))) (store sys)))
    by (apply storeOk_with_fresh; [exact Hok | lia]).
  eexists. exists (mkObj (fresh (store sys)) u).
  split; [apply step_login_ok; assumption|].
  cbn [store effects dispatched login_fx inner_ended stream_after alive active fields].
  split; [reflexivity|].
  split; [apply dispatch_eq; exact Hok'|].
  repeat split; try assumption.
  apply commit_loginSuccess. exact Hok'.
Qed.

(** C4, counterexample. The login scenario on the initial system, with
    one subscriber of the [user] slice: the callback has run twice when the
    success action has been reduced. *)
Lemma login_scenario_notifies_twice :
  let alice := mkUser "1" "Alice" "alice@example.com" "admin" in
  exists sys : System,
    run 2 [Dispatch (login "a" "b"); LoginResponse 0 (HttpOk ("token", alice))]
      (initialSystem [slice_user]) = Ok sys
    /\ notificationsFor slice_user (store sys) = 2
    /\ notificationsFor slice_user (store sys) <> 1.
Proof.
  intros alice. eexists. split; [vm_compute; reflexivity|].
  split; [vm_compute; reflexivity | vm_compute; discriminate].
Qed.

(** C4 (as the code has it). Login scenario end to end: from the initial
    state, the login request and then, once the login exchange has answered
    with a user, the effect's success action leave a slice that holds that
    user with [isAuthenticated] true; over the flow a subscriber of the
    slice is notified twice, once per action, and a subscriber of
    [selectIsAuthenticated] or of [selectCurrentUser] once. *)
Theorem login_scenario :
  forall (username password tok : string) (u : User) (k : nat),
    exists (sys : System) (o : Obj User),
      run (S k) [Dispatch (login username password); LoginResponse 0 (HttpOk (tok, u))]
        (initialSystem [slice_user; selector isAuthenticated_node;
                        selector currentUser_node]) = Ok sys
      /\ fields o = u
      /\ fields (user (fields (state (store sys)))) = mkUserState (Some o) true false None
      /\ dispatched sys = [login username password; loginSuccess o]
      /\ notificationsFor slice_user (store sys) = 2
      /\ notificationsFor (selector isAuthenticated_node) (store sys) = 1
      /\ notificationsFor (selector currentUser_node) (store sys) = 1.
Proof.
  intros username password tok u k.
  eexists. exists (mkObj 4 u).
  split; [destruct k; vm_compute; reflexivity|].
  vm_compute. repeat split.
Qed.

(** C5. Effect fault isolation: when the login exchange fails, the inner
    pipe of [login$] turns the error [AuthService.login] throws into one
    [[Auth] Login Failure] that carries its message; the step does not fail,
    nothing else is dispatched or performed, every effect that was alive
    still is, and the other calls in flight stay in flight. *)
Theorem login_failure_isolated :
  forall (sys : System) (call : nat) (e : JsError) (k : nat),
    reachable (store sys) ->
    alive (login_fx (effects sys)) = true ->
    In call (active (login_fx (effects sys))) ->
    (forall (values : list (Obj User)) (e' : JsError) (did : list SideEffect),
        UserEffects.login_inner (mkObservable values (errored e') did)
        = mkObservable (map loginSuccess values ++ [loginFailure (message e')])
            completed did)
    /\ AuthService.login (Rx.throwError e) = Rx.throwError (mkError "Invalid credentials")
    /\ exists sys' : System,
        step (S k) (LoginResponse call (HttpError e)) sys = Ok sys'
        /\ dispatched sys' = dispatched sys ++ [loginFailure "Invalid credentials"]
        /\ done sys' = done sys
        /\ alive (login_fx (effects sys')) = true
        /\ alive (loginSuccess_fx (effects sys')) = alive (loginSuccess_fx (effects sys))
        /\ alive (logout_fx (effects sys')) = alive (logout_fx (effects sys))
        /\ alive (logoutSuccess_fx (effects sys')) = alive (logoutSuccess_fx (effects sys))
        /\ alive (getUserProfile_fx (effects sys'))
           = alive (getUserProfile_fx (effects sys))
        /\ active (login_fx (effects sys'))
           = filter (fun c => negb (Nat.eqb c call)) (active (login_fx (effects sys)))
        /\ active (getUserProfile_fx (effects sys'))
           = active (getUserProfile_fx (effects sys)).
Proof.
  intros sys call e k Hreach Ha Hin.
  split.
  { intros values e' did. unfold UserEffects.login_inner, Rx.catchError, Rx.map, Rx.of_.
    cbn. rewrite app_nil_r. reflexivity. }
  split; [reflexivity|].
  eexists. split.
  - apply step_login_error; [apply reachable_ok; exact Hreach | exact Ha | exact Hin].
  - cbn [effects dispatched done login_fx loginSuccess_fx logout_fx logoutSuccess_fx
         getUserProfile_fx inner_ended stream_after alive active].
    repeat split; assumption.
Qed.

Lemma login_failure_isolated_witness :
  let sys :=
    mkSystem (commit (login "a" "b") (subscribe slice_user initialStore))
      (mkEffects (subscribe_inner 0 started) started started started started 1)
      [login "a" "b"] [] in
  reachable (store sys)
  /\ alive (login_fx (effects sys)) = true
  /\ In 0 (active (login_fx (effects sys)))
  /\ exists sys' : System,
      step 1 (LoginResponse 0 (HttpError (mkError "Http failure response"))) sys = Ok sys'
      /\ dispatched sys' = [login "a" "b"; loginFailure "Invalid credentials"]
      /\ alive (login_fx (effects sys')) = true.
Proof.
  intros sys.
  assert (Hr : reachable (store sys)).
  { apply (reach_dispatch (login "a" "b") (subscribe slice_user initialStore));
      [apply reach_subscribe, reach_init | reflexivity]. }
  assert (Ha : alive (login_fx (effects sys)) = true) by reflexivity.
  assert (Hin : In 0 (active (login_fx (effects sys)))) by (left; reflexivity).
  destruct (login_failure_isolated sys 0 (mkError "Http failure response") 0 Hr Ha Hin)
    as (_ & _ & sys' & Hs & Hd & _ & Hl & _).
  repeat split; try assumption.
  exists sys'. repeat split; assumption.
Defined.

Lemma run_cons (fuel : nat) (ev : Event) (rest : list Event) (sys sys' : System) :
  step fuel ev sys = Ok sys' -> run fuel (ev :: rest) sys = run fuel rest sys'.
Proof. intros E. cbn [run]. rewrite E. reflexivity. Qed.

(** C6, counterexample. Two logins in a row, the second answered first:
    the answer to the first comes later and is dispatched all the same, and
    its user is the one the state ends with. *)
Lemma earlier_login_still_dispatched :
  let alice := mkUser "1" "Alice" "alice@example.com" "admin" in
  let bob := mkUser "2" "Bob" "bob@example.com" "user" in
  exists sys : System,
    run 1 [ Dispatch (login "alice" "a");
            Dispatch (login "bob" "b");
            LoginResponse 1 (HttpOk ("token-bob", bob));
            LoginResponse 0 (HttpOk ("token-alice", alice)) ]
      (initialSystem []) = Ok sys
    /\ dispatched sys
       = [ login "alice" "a"; login "bob" "b";
           loginSuccess (mkObj 6 bob); loginSuccess (mkObj 9 alice) ]
    /\ currentUser (fields (user (fields (state (store sys))))) = Some (mkObj 9 alice).
Proof.
  intros alice bob. eexists. split; [vm_compute; reflexivity|].
  split; vm_compute; reflexivity.
Qed.

(** C6 (as the code has it). [login$] maps its triggers with [mergeMap]:
    when a second login is dispatched before the first has settled, both
    calls stay in flight, and the completion of each is dispatched as a
    follow-up action when it arrives, in the order of arrival; the state
    ends with the user of the completion that arrived last. *)
Theorem login_effect_merges :
  forall (sys : System) (u1 p1 u2 p2 tok1 tok2 : string) (user1 user2 : User)
         (second_first : bool) (k : nat),
    reachable (store sys) ->
    alive (login_fx (effects sys)) = true ->
    let c1 := nextCall (effects sys) in
    let c2 := S c1 in
    let r1 := LoginResponse c1 (HttpOk (tok1, user1)) in
    let r2 := LoginResponse c2 (HttpOk (tok2, user2)) in
    exists (sys' : System) (o1 o2 : Obj User),
      run (S k)
        ([Dispatch (login u1 p1); Dispatch (login u2 p2)]
           ++ (if second_first then [r2; r1] else [r1; r2])) sys = Ok sys'
      /\ fields o1 = user1
      /\ fields o2 = user2
      /\ dispatched sys'
         = dispatched sys
             ++ [login u1 p1; login u2 p2]
             ++ (if second_first
                 then [loginSuccess o2; loginSuccess o1]
                 else [loginSuccess o1; loginSuccess o2])
      /\ currentUser (fields (user (fields (state (store sys')))))
         = Some (if second_first then o1 else o2).
Proof.
  intros sys u1 p1 u2 p2 tok1 tok2 user1 user2 second_first k Hreach Ha c1 c2 r1 r2.
  pose proof (reachable_ok _ Hreach) as Hok.
  destruct (step_login_invariants k u1 p1 sys Hok Ha)
    as (s1 & E1 & Hok1 & Ha1 & Hact1 & Hn1 & Hd1).
  destruct (step_login_invariants k u2 p2 s1 Hok1 Ha1)
    as (s2 & E2 & Hok2 & Ha2 & Hact2 & Hn2 & Hd2).
  rewrite Hn1 in Hact2. fold c1 in Hact1, Hact2. fold c2 in Hact2.
  rewrite Hact1 in Hact2.
  assert (Hin1 : In c1 (active (login_fx (effects s2)))).
  { rewrite Hact2. apply in_or_app. left. apply in_or_app. right. left. reflexivity. }
  assert (Hin2 : In c2 (active (login_fx (effects s2)))).
  { rewrite Hact2. apply in_or_app. right. left. reflexivity. }
  cbn [app]. rewrite (run_cons _ _ _ _ _ E1), (run_cons _ _ _ _ _ E2).
  destruct second_first.
  - destruct (step_login_ok_invariants k c2 tok2 user2 s2 Hok2 Ha2 Hin2)
      as (s3 & o2 & E3 & Ho2 & Hok3 & Ha3 & Hact3 & Hd3 & _).
    assert (Hin1' : In c1 (active (login_fx (effects s3)))).
    { rewrite Hact3. apply filter_In. split; [exact Hin1|].
      apply negb_true_iff, Nat.eqb_neq. subst c2. lia. }
    destruct (step_login_ok_invariants k c1 tok1 user1 s3 Hok3 Ha3 Hin1')
      as (s4 & o1 & E4 & Ho1 & _ & _ & _ & Hd4 & Hst4).
    exists s4, o1, o2. subst r1 r2.
    rewrite (run_cons _ _ _ _ _ E3), (run_cons _ _ _ _ _ E4). cbn [run].
    repeat split; try assumption.
    + rewrite Hd4, Hd3, Hd2, Hd1, <- !app_assoc. reflexivity.
    + rewrite Hst4. reflexivity.
  - destruct (step_login_ok_invariants k c1 tok1 user1 s2 Hok2 Ha2 Hin1)
      as (s3 & o1 & E3 & Ho1 & Hok3 & Ha3 & Hact3 & Hd3 & _).
    assert (Hin2' : In c2 (active (login_fx (effects s3)))).
    { rewrite Hact3. apply filter_In. split; [exact Hin2|].
      apply negb_true_iff, Nat.eqb_neq. subst c2. lia. }
    destruct (step_login_ok_invariants k c2 tok2 user2 s3 Hok3 Ha3 Hin2')
      as (s4 & o2 & E4 & Ho2 & _ & _ & _ & Hd4 & Hst4).
    exists s4, o1, o2. subst r1 r2.
    rewrite (run_cons _ _ _ _ _ E3), (run_cons _ _ _ _ _ E4). cbn [run].
    repeat split; try assumption.
    + rewrite Hd4, Hd3, Hd2, Hd1, <- !app_assoc. reflexivity.
    + rewrite Hst4. reflexivity.
Qed.

Lemma login_effect_merges_witness :
  let sys := initialSystem [slice_user] in
  let alice := mkUser "1" "Alice" "alice@example.com" "admin" in
  let bob := mkUser "2" "Bob" "bob@example.com" "user" in
  reachable (store sys)
  /\ alive (login_fx (effects sys)) = true
  /\ exists (sys' : System) (o1 o2 : Obj User),
      run 1 [ Dispatch (login "alice" "a");
              Dispatch (login "bob" "b");
              LoginResponse 1 (HttpOk ("token-bob", bob));
              LoginResponse 0 (HttpOk ("token-alice", alice)) ] sys = Ok sys'
      /\ fields o1 = alice
      /\ fields o2 = bob
      /\ dispatched sys'
         = [ login "alice" "a"; login "bob" "b"; loginSuccess o2; loginSuccess o1 ]
      /\ currentUser (fields (user (fields (state (store sys'))))) = Some o1.
Proof.
  intros sys alice bob.
  assert (Hr : reachable (store sys)) by (apply reach_subscribe, reach_init).
  assert (Ha : alive (login_fx (effects sys)) = true) by reflexivity.
  split; [exact Hr | split; [exact Ha|]].
  exact (login_effect_merges sys "alice" "a" "bob" "b" "token-alice" "token-bob"
           alice bob true 0 Hr Ha).
Defined.

(** C10. Logout always completes: the inner pipe of [logout$] emits one
    [[Auth] Logout Success] and completes, whether [AuthService.logout]
    answers or fails; the handler of [[Auth] Logout Success] gives a state
    deeply equal to [initialUserState] from every state; so a dispatched
    [[Auth] Logout] is followed by [[Auth] Logout Success] within the same
    step, which leaves the slice with the fields of [initialUserState]. *)
Theorem logout_always_completes :
  forall (sys : System) (k : nat),
    reachable (store sys) ->
    alive (logout_fx (effects sys)) = true ->
    (forall did : list SideEffect,
        UserEffects.logout_inner (mkObservable [tt] completed did)
        = mkObservable [logoutSuccess] completed did)
    /\ (forall (e : JsError) (did : list SideEffect),
           UserEffects.logout_inner (mkObservable [] (errored e) did)
           = mkObservable [logoutSuccess] completed did)
    /\ (forall (s : option (Obj UserState)) (n : ref),
           deepEqual (fst (userReducer s logoutSuccess n)) initialUserState)
    /\ exists sys' : System,
        step (S (S k)) (Dispatch logout) sys = Ok sys'
        /\ dispatched sys' = dispatched sys ++ [logout; logoutSuccess]
        /\ fields (user (fields (state (store sys')))) = fields initialUserState
        /\ alive (logout_fx (effects sys')) = true.
Proof.
  intros sys k Hreach Ha.
  pose proof (reachable_ok _ Hreach) as Hok.
  split; [intros did; reflexivity|].
  split.
  { intros e did. unfold UserEffects.logout_inner, Rx.catchError, Rx.map, Rx.of_.
    cbn. rewrite app_nil_r. reflexivity. }
  split; [intros s n; rewrite userReducer_eq; reflexivity|].
  eexists. split; [apply step_logout; assumption|].
  cbn [store effects dispatched logout_fx].
  split; [rewrite <- app_assoc; reflexivity|].
  split; [|exact Ha].
  destruct (dispatch_eq logout (store sys) Hok) as [_ Hok'].
  destruct (commit_registered logoutSuccess _ Hok' eq_refl) as (E & _ & _).
  rewrite E, userReducer_eq. reflexivity.
Qed.

Lemma logout_always_completes_witness :
  let alice := mkObj 4 (mkUser "1" "Alice" "alice@example.com" "admin") in
  let sys :=
    mkSystem (commit (loginSuccess alice) (subscribe slice_user initialStore))
      (mkEffects started started started started started 0)
      [loginSuccess alice] [] in
  reachable (store sys)
  /\ alive (logout_fx (effects sys)) = true
  /\ isAuthenticated (fields (user (fields (state (store sys))))) = true
  /\ exists sys' : System,
      step 2 (Dispatch logout) sys = Ok sys'
      /\ dispatched sys' = [loginSuccess alice; logout; logoutSuccess]
      /\ fields (user (fields (state (store sys')))) = fields initialUserState.
Proof.
  intros alice sys.
  assert (Hr : reachable (store sys)).
  { apply (reach_dispatch (loginSuccess alice) (subscribe slice_user initialStore));
      [apply reach_subscribe, reach_init | reflexivity]. }
  assert (Ha : alive (logout_fx (effects sys)) = true) by reflexivity.
  destruct (logout_always_completes sys 0 Hr Ha) as (_ & _ & _ & sys' & Hs & Hd & Hf & _).
  split; [exact Hr | split; [exact Ha | split; [reflexivity|]]].
  exists sys'. repeat split; assumption.
Defined.

(** * Further properties *)

(** ** The reducer, continued *)

(** X1. Every action is idempotent on what the state holds: reducing the
    same action a second time gives a state deeply equal to the one the
    first reduction gave. *)
Theorem userReducer_idempotent :
  forall (s : Obj UserState) (a : Action) (n1 n2 : ref),
    deepEqual
      (fst (userReducer (Some (fst (userReducer (Some s) a n1))) a n2))
      (fst (userReducer (Some s) a n1)).
Proof.
  intros s a n1 n2. rewrite !userReducer_eq. destruct a; reflexivity.
Qed.

(** X2. After any sequence of actions, [isAuthenticated] is what the last
    [[Auth] Login Success] or [[Auth] Logout Success] of the sequence made
    it, and what it was before when the sequence has neither. *)
Theorem isAuthenticated_lastAuthChange :
  forall (actions : list Action) (s : Obj UserState) (n : ref),
    isAuthenticated (fields (fst (reduce_all s actions n)))
    = match lastAuthChange actions with
      | Some b => b
      | None => isAuthenticated (fields s)
      end.
Proof.
  induction actions as [|a rest IH]; intros s n; cbn [reduce_all lastAuthChange].
  - reflexivity.
  - unfold bind. destruct (userReducer (Some s) a n) as [s' n'] eqn:E.
    rewrite IH. destruct (lastAuthChange rest); [reflexivity|].
    change s' with (fst (s', n')). rewrite <- E, userReducer_eq.
    destruct a; reflexivity.
Qed.

(** ** The selectors, continued *)

Ltac typed_read nd sel st :=
  let Hg := fresh "Hg" in
  let E := fresh "E" in
  let v := fresh "v" in
  let g' := fresh "g" in
  let Ev := fresh "Ev" in
  let Eg := fresh "Eg" in
  intros (_ & _ & _ & Hg & _);
  pose proof (selectNode_eq nd _ _ _ Hg) as E;
  unfold read; cbn [selectNode] in *;
  destruct (sel (state st) (graph st)) as [v g'];
  injection E as Ev Eg; cbn [valueNode] in Ev; subst;
  reflexivity.

Lemma read_selectUserState (st : Store) :
  storeOk st ->
  read selectUserState st
  = (user (fields (state st)), snd (read (selectNode userState_node) st)).
Proof. typed_read userState_node selectUserState st. Qed.

Lemma read_selectCurrentUser (st : Store) :
  storeOk st ->
  read selectCurrentUser st
  = (currentUser (sliceOf st), snd (read (selectNode currentUser_node) st)).
Proof. typed_read currentUser_node selectCurrentUser st. Qed.

Lemma read_selectIsAuthenticated (st : Store) :
  storeOk st ->
  read selectIsAuthenticated st
  = (isAuthenticated (sliceOf st), snd (read (selectNode isAuthenticated_node) st)).
Proof. typed_read isAuthenticated_node selectIsAuthenticated st. Qed.

Lemma read_selectUserLoading (st : Store) :
  storeOk st ->
  read selectUserLoading st
  = (loading (sliceOf st), snd (read (selectNode userLoading_node) st)).
Proof. typed_read userLoading_node selectUserLoading st. Qed.

Lemma read_selectUserError (st : Store) :
  storeOk st ->
  read selectUserError st
  = (error (sliceOf st), snd (read (selectNode userError_node) st)).
Proof. typed_read userError_node selectUserError st. Qed.

(** X3. The selectors built on [selectUserState] never answer from a stale
    cache: on every store the application can be in, each returns the field
    of the slice the store holds at that moment. *)
Theorem selectors_return_current_fields :
  forall st : Store,
    reachable st ->
    fst (read selectUserState st) = user (fields (state st))
    /\ fst (read selectCurrentUser st) = currentUser (sliceOf st)
    /\ fst (read selectIsAuthenticated st) = isAuthenticated (sliceOf st)
    /\ fst (read selectUserLoading st) = loading (sliceOf st)
    /\ fst (read selectUserError st) = error (sliceOf st).
Proof.
  intros st Hreach. pose proof (reachable_ok st Hreach) as Hok.
  rewrite (read_selectUserState st Hok), (read_selectCurrentUser st Hok),
    (read_selectIsAuthenticated st Hok), (read_selectUserLoading st Hok),
    (read_selectUserError st Hok).
  repeat split.
Qed.

Lemma selectors_return_current_fields_witness :
  let st := commit (loginFailure "Invalid credentials")
              (commit (login "a" "b") (subscribe slice_user initialStore)) in
  reachable st
  /\ fst (read selectUserLoading st) = false
  /\ fst (read selectUserError st) = Some "Invalid credentials".
Proof.
  intros st.
  assert (Hr : reachable st).
  { apply (reach_dispatch (loginFailure "Invalid credentials")
             (commit (login "a" "b") (subscribe slice_user initialStore)));
      [|reflexivity].
    apply (reach_dispatch (login "a" "b") (subscribe slice_user initialStore));
      [apply reach_subscribe, reach_init | reflexivity]. }
  destruct (selectors_return_current_fields st Hr) as (_ & _ & _ & H4 & H5).
  split; [exact Hr | split; [exact H4 | exact H5]].
Defined.

(** X4. Reading a selector is invisible to every other read: on every store
    the application can be in, after a read of any selector the state, the
    subscriptions and the allocation counter are the ones before, and every
    selector returns what it would have returned without that read. *)
Theorem selector_reads_do_not_interfere :
  forall (st : Store) (n m : Node),
    reachable st ->
    let st' := snd (read (selectNode n) st) in
    state st' = state st
    /\ subscribers st' = subscribers st
    /\ fresh st' = fresh st
    /\ fst (read (selectNode m) st') = fst (read (selectNode m) st).
Proof.
  intros st n m Hreach st'.
  pose proof (reachable_ok st Hreach) as Hok.
  destruct (read_eq n st Hok) as [En Hok'].
  destruct (read_eq m st Hok) as [Em _].
  destruct (read_eq m st' Hok') as [Em' _].
  subst st'. rewrite Em', Em, En. cbn [fst snd state subscribers fresh graph].
  repeat split. apply valueNode_touch.
Qed.

Lemma selector_reads_do_not_interfere_witness :
  let st := commit (login "a" "b") initialStore in
  let st' := snd (read (selectNode userRole_node) st) in
  reachable st
  /\ state st' = state st
  /\ fst (read (selectNode userLoading_node) st')
     = fst (read (selectNode userLoading_node) st).
Proof.
  intros st st'.
  assert (Hr : reachable st).
  { apply (reach_dispatch (login "a" "b") initialStore);
      [apply reach_init | reflexivity]. }
  destruct (selector_reads_do_not_interfere st userRole_node userLoading_node Hr)
    as (H1 & _ & _ & H4).
  split; [exact Hr | split; [exact H1 | exact H4]].
Defined.

(** ** The guards *)

(** X5. [AuthGuard] decides on the state of the moment: on every store the
    application can be in it allows the navigation exactly when
    [isAuthenticated] is true in the current state, sends it to [/login]
    otherwise, and leaves the state as it is. *)
Theorem AuthGuard_decides_on_current_state :
  forall st : Store,
    reachable st ->
    fst (AuthGuard.canActivate st)
    = (if isAuthenticated (sliceOf st) then allowed else redirected ["/login"])
    /\ state (snd (AuthGuard.canActivate st)) = state st
    /\ reachable (snd (AuthGuard.canActivate st)).
Proof.
  intros st Hreach. pose proof (reachable_ok st Hreach) as Hok.
  unfold AuthGuard.canActivate. rewrite (read_selectIsAuthenticated st Hok).
  cbn [fst snd].
  destruct (read_eq isAuthenticated_node st Hok) as [E _].
  split; [reflexivity|]. split.
  - rewrite E. reflexivity.
  - apply reach_read. exact Hreach.
Qed.

Lemma AuthGuard_decides_on_current_state_witness :
  let st := commit (login "a" "b") initialStore in
  reachable st
  /\ fst (AuthGuard.canActivate st) = redirected ["/login"].
Proof.
  intros st.
  assert (Hr : reachable st).
  { apply (reach_dispatch (login "a" "b") initialStore);
      [apply reach_init | reflexivity]. }
  destruct (AuthGuard_decides_on_current_state st Hr) as (H1 & _).
  split; [exact Hr | exact H1].
Defined.

(** ** The running application *)

Lemma roleMemoOk_out (bound : ref) (cu : option (Obj User))
  (m : Memo (option (Obj User)) (option string)) :
  roleMemoOk bound cu m -> out project_userRole m cu = project_userRole cu.
Proof.
  unfold roleMemoOk, out, memoized. destruct (cached m) as [[a b]|]; [|reflexivity].
  intros (Hb & _ & Hc). destruct (strict_eq cu a) eqn:E; [|reflexivity].
  cbn. rewrite Hb, (Hc eq_refl). reflexivity.
Qed.

Lemma roleMemoOk_touch (bound : ref) (cu : option (Obj User))
  (m : Memo (option (Obj User)) (option string)) :
  (forall x, cu = Some x -> oid x < bound) ->
  roleMemoOk bound cu m ->
  roleMemoOk bound cu (touch project_userRole m cu).
Proof.
  intros Hcu Hm. destruct (hit m cu) eqn:E.
  - rewrite touch_hit; assumption.
  - rewrite touch_miss by assumption. unfold roleMemoOk. cbn. auto.
Qed.

Lemma roleMemoOk_change (bound bound' : ref) (cu cu' : option (Obj User))
  (m : Memo (option (Obj User)) (option string)) :
  roleMemoOk bound cu m ->
  bound <= bound' ->
  (cu' = cu \/ cu' = None \/ exists u, cu' = Some u /\ bound <= oid u) ->
  roleMemoOk bound' cu' m.
Proof.
  unfold roleMemoOk. destruct (cached m) as [[a b]|]; [|auto].
  intros (Hb & Ha & Hc) Hle Hcu'. split; [exact Hb|]. split.
  - intros x Hx. specialize (Ha x Hx). lia.
  - destruct Hcu' as [-> | [-> | (u & -> & Hu)]].
    + exact Hc.
    + destruct a; cbn; [discriminate | reflexivity].
    + destruct a as [x|]; cbn; [|discriminate].
      intros E. apply Nat.eqb_eq in E. specialize (Ha x eq_refl). lia.
Qed.

Lemma role_memo_touchNode (n : Node) (r : Obj AppState) (g : SelectorGraph) :
  userRole_memo (touchNode n r g) = userRole_memo g
  \/ userRole_memo (touchNode n r g)
     = touch project_userRole (userRole_memo g)
         (currentUser (fields (user (fields r)))).
Proof.
  destruct g as [m1 m2 m3 m4 m5 m6].
  destruct n; cbn; auto.
Qed.

Lemma role_memo_touchTarget (t : Target) (r : Obj AppState) (g : SelectorGraph) :
  userRole_memo (touchTarget t r g) = userRole_memo g
  \/ userRole_memo (touchTarget t r g)
     = touch project_userRole (userRole_memo g)
         (currentUser (fields (user (fields r)))).
Proof.
  destruct t as [|n]; [left; reflexivity | apply role_memo_touchNode].
Qed.

Lemma role_memo_touchAll (r : Obj AppState) (subs : list Subscriber) :
  forall g : SelectorGraph,
    userRole_memo (touchAll r subs g) = userRole_memo g
    \/ userRole_memo (touchAll r subs g)
       = touch project_userRole (userRole_memo g)
           (currentUser (fields (user (fields r)))).
Proof.
  unfold touchAll.
  induction subs as [|sub rest IH]; intros g; cbn [fold_left].
  - left. reflexivity.
  - destruct (IH (touchTarget (target sub) r g)) as [E | E];
      destruct (role_memo_touchTarget (target sub) r g) as [E' | E'];
      rewrite E, E'; auto.
    right. apply touch_touch.
Qed.

Lemma roleMemoOk_either (bound : ref) (cu : option (Obj User))
  (m m' : Memo (option (Obj User)) (option string)) :
  (forall x, cu = Some x -> oid x < bound) ->
  roleMemoOk bound cu m ->
  m' = m \/ m' = touch project_userRole m cu ->
  roleMemoOk bound cu m'.
Proof.
  intros Hcu Hm [-> | ->]; [exact Hm | apply roleMemoOk_touch; assumption].
Qed.

Lemma usersBelow_touchTarget (t : Target) (bound : ref) (st : Store) (g' : SelectorGraph)
  (subs : list Subscriber) (n : ref) (d : bool) :
  usersBelow bound st ->
  g' = touchTarget t (state st) (graph st) ->
  usersBelow bound (mkStore (state st) n g' subs d).
Proof.
  intros [Hcu Hm] ->. split; [exact Hcu|].
  unfold sliceOf in *. cbn [state graph].
  eapply roleMemoOk_either; [exact Hcu | exact Hm | apply role_memo_touchTarget].
Qed.

Lemma usersBelow_with_fresh (bound n : ref) (st : Store) :
  usersBelow bound st -> usersBelow bound (with_fresh n st).
Proof. intros H. exact H. Qed.

Lemma commit_slice (a : Action) (st : Store) :
  storeOk st ->
  user (fields (state (commit a st)))
  = fst (userReducer (Some (user (fields (state st)))) a (fresh st))
  /\ fresh st <= fresh (commit a st).
Proof.
  intros (Hd & Hr & Hc & Hg & Hs). unfold commit. cbn [state fresh].
  split; [apply rootReducer_user; exact Hc|].
  rewrite (rootReducer_eq _ _ _ Hc).
  destruct (UserActions.registered (type a)); cbn; lia.
Qed.

(** The current user after an action. *)
Lemma currentUser_after (s : Obj UserState) (a : Action) (n : ref) :
  currentUser (fields (fst (userReducer (Some s) a n)))
  = match a with
    | loginSuccess u | getUserProfileSuccess u => Some u
    | logoutSuccess => None
    | _ => currentUser (fields s)
    end.
Proof. rewrite userReducer_eq. destruct a; reflexivity. Qed.

Lemma isAuthenticated_after (s : Obj UserState) (a : Action) (n : ref) :
  isAuthenticated (fields (fst (userReducer (Some s) a n)))
  = match a with
    | loginSuccess _ => true
    | logoutSuccess => false
    | _ => isAuthenticated (fields s)
    end.
Proof. rewrite userReducer_eq. destruct a; reflexivity. Qed.

(** What a committed dispatch keeps of the invariant, for an action that
    carries no user or a user allocated at [b]. *)
Lemma commit_keeps (a : Action) (st : Store) (b : ref) :
  storeOk st ->
  usersBelow b st ->
  b <= fresh st ->
  (props_user a = None
   \/ exists u, props_user a = Some u /\ oid u = b /\ b < fresh st) ->
  authenticatedHasUser (user (fields (state st))) = true ->
  storeOk (commit a st)
  /\ usersBelow (fresh (commit a st)) (commit a st)
  /\ authenticatedHasUser (user (fields (state (commit a st)))) = true.
Proof.
  intros Hok [Hcu Hm] Hb Hu Hinv.
  destruct (dispatch_eq a st Hok) as [_ Hok'].
  destruct (commit_slice a st Hok) as [Esl Hfr].
  split; [exact Hok'|]. split.
  - assert (Hcu' : currentUser (sliceOf (commit a st)) = currentUser (sliceOf st)
                   \/ currentUser (sliceOf (commit a st)) = None
                   \/ exists u, currentUser (sliceOf (commit a st)) = Some u
                                /\ oid u = b /\ b < fresh st).
    { unfold sliceOf. rewrite Esl, currentUser_after.
      destruct a; cbn in Hu; auto;
        destruct Hu as [Hu | (u & Hu & Ho & Hlt)]; try discriminate;
        injection Hu as <-; right; right; eauto. }
    assert (Hbelow : forall x, currentUser (sliceOf (commit a st)) = Some x ->
                               oid x < fresh (commit a st)).
    { intros x Hx. destruct Hcu' as [E | [E | (u & E & Ho & Hlt)]].
      - rewrite E in Hx. specialize (Hcu x Hx). lia.
      - rewrite E in Hx. discriminate.
      - rewrite E in Hx. injection Hx as <-. lia. }
    split; [exact Hbelow|].
    assert (Hm' : roleMemoOk (fresh (commit a st)) (currentUser (sliceOf (commit a st)))
                    (userRole_memo (graph st))).
    { eapply roleMemoOk_change; [exact Hm | lia |].
      destruct Hcu' as [E | [E | (u & E & Ho & Hlt)]]; auto.
      right. right. exists u. split; [exact E | lia]. }
    eapply roleMemoOk_either; [exact Hbelow | exact Hm' |].
    unfold commit at 1 3. cbn [graph]. unfold sliceOf.
    apply role_memo_touchAll.
  - rewrite Esl. apply userReducer_keeps_invariant. exact Hinv.
Qed.

Lemma commit_sliceOf (a : Action) (st : Store) :
  storeOk st ->
  isAuthenticated (sliceOf (commit a st))
  = match a with
    | loginSuccess _ => true
    | logoutSuccess => false
    | _ => isAuthenticated (sliceOf st)
    end.
Proof.
  intros Hok. unfold sliceOf. destruct (commit_slice a st Hok) as [E _].
  rewrite E. apply isAuthenticated_after.
Qed.

(** The storage, operation by operation. *)
Lemma getItem_setItem (key value : string) (s : LocalStorage.Storage) :
  LocalStorage.getItem key (LocalStorage.setItem key value s) = Some value.
Proof.
  unfold LocalStorage.getItem, LocalStorage.setItem. cbn.
  rewrite String.eqb_refl. reflexivity.
Qed.

Lemma getItem_removeItem (key : string) (s : LocalStorage.Storage) :
  LocalStorage.getItem key (LocalStorage.removeItem key s) = None.
Proof.
  unfold LocalStorage.getItem, LocalStorage.removeItem.
  induction s as [|[k v] rest IH]; cbn; [reflexivity|].
  destruct (String.eqb key k) eqn:E; cbn; [exact IH|].
  rewrite E. exact IH.
Qed.

Lemma localStorage_done (st : Store) (fx : Effects) (disp : list Action)
  (dn effs : list SideEffect) :
  localStorage (mkSystem st fx disp (dn ++ effs))
  = fold_left perform effs (fold_left perform dn []).
Proof. unfold localStorage. cbn [done]. apply fold_left_app. Qed.

Lemma observe_getUserProfile (fx : Effects) :
  alive (getUserProfile_fx fx) = true ->
  observe getUserProfile fx
  = (mkEffects (login_fx fx) (loginSuccess_fx fx) (logout_fx fx)
       (logoutSuccess_fx fx) (subscribe_inner (nextCall fx) (getUserProfile_fx fx))
       (S (nextCall fx)), [], []).
Proof.
  intros Ha. unfold observe, ofType. cbn. rewrite Ha, !andb_false_r. reflexivity.
Qed.

Lemma observe_getUserProfileSuccess (u : Obj User) (fx : Effects) :
  observe (getUserProfileSuccess u) fx
  = (mkEffects (login_fx fx) (loginSuccess_fx fx) (logout_fx fx)
       (logoutSuccess_fx fx) (getUserProfile_fx fx) (nextCall fx), [], []).
Proof.
  unfold observe, ofType. cbn. rewrite !andb_false_r. reflexivity.
Qed.

(** A component asks for the profile. *)
Lemma step_getUserProfile (k : nat) (sys : System) :
  storeOk (store sys) ->
  alive (getUserProfile_fx (effects sys)) = true ->
  let fx := effects sys in
  step (S k) (Dispatch getUserProfile) sys
  = Ok (mkSystem (commit getUserProfile (store sys))
          (mkEffects (login_fx fx) (loginSuccess_fx fx) (logout_fx fx)
             (logoutSuccess_fx fx)
             (subscribe_inner (nextCall fx) (getUserProfile_fx fx))
             (S (nextCall fx)))
          (dispatched sys ++ [getUserProfile]) (done sys)).
Proof.
  intros Hok Ha fx. subst fx. unfold step.
  etransitivity.
  - apply run_bus_last; [exact Hok | apply observe_getUserProfile; exact Ha].
  - rewrite app_nil_r. reflexivity.
Qed.

(** The profile exchange succeeds. *)
Lemma step_profile_ok (k : nat) (call : nat) (u : User) (sys : System) :
  storeOk (store sys) ->
  alive (getUserProfile_fx (effects sys)) = true ->
  In call (active (getUserProfile_fx (effects sys))) ->
  let fx := effects sys in
  let success := getUserProfileSuccess (mkObj (fresh (store sys)) u) in
  step (S k) (ProfileResponse call (HttpOk u)) sys
  = Ok (mkSystem (commit success (with_fresh (S (fresh (store sys))) (store sys)))
          (mkEffects (login_fx fx) (loginSuccess_fx fx) (logout_fx fx)
             (logoutSuccess_fx fx)
             (inner_ended call completed (getUserProfile_fx fx)) (nextCall fx))
          (dispatched sys ++ [success]) (done sys)).
Proof.
  intros Hok Ha Hin fx success. subst fx success. unfold step.
  rewrite Ha, (active_call _ _ Hin). cbn [andb new].
  cbn [UserEffects.getUserProfile_inner AuthService.getCurrentUser Rx.of_ Rx.map
       Rx.catchError emitted ending performed List.map app].
  etransitivity.
  - apply run_bus_last.
    + apply storeOk_with_fresh; [exact Hok | lia].
    + cbn [effects]. rewrite observe_getUserProfileSuccess. reflexivity.
  - cbn [store effects dispatched done]. rewrite !app_nil_r. reflexivity.
Qed.

(** The profile exchange fails. *)
Lemma step_profile_error (k : nat) (call : nat) (e : JsError) (sys : System) :
  storeOk (store sys) ->
  alive (getUserProfile_fx (effects sys)) = true ->
  In call (active (getUserProfile_fx (effects sys))) ->
  let fx := effects sys in
  let failure := loginFailure "Failed to fetch user profile" in
  step (S k) (ProfileResponse call (HttpError e)) sys
  = Ok (mkSystem (commit failure (with_fresh (fresh (store sys)) (store sys)))
          (mkEffects (login_fx fx) (loginSuccess_fx fx) (logout_fx fx)
             (logoutSuccess_fx fx)
             (inner_ended call completed (getUserProfile_fx fx)) (nextCall fx))
          (dispatched sys ++ [failure]) (done sys)).
Proof.
  intros Hok Ha Hin fx failure. subst fx failure. unfold step.
  rewrite Ha, (active_call _ _ Hin). cbn [andb].
  cbn [UserEffects.getUserProfile_inner AuthService.getCurrentUser Rx.throwError
       Rx.map Rx.catchError Rx.of_ emitted ending performed List.map app message].
  etransitivity.
  - apply run_bus_last.
    + apply storeOk_with_fresh; [exact Hok | apply Nat.le_refl].
    + cbn [effects]. rewrite observe_loginFailure. reflexivity.
  - cbn [store effects dispatched done]. rewrite !app_nil_r. reflexivity.
Qed.

(** An answer to a call that is not in flight changes nothing. *)
Lemma step_login_stray (fuel call : nat) (r : HttpResponse (string * User)) (sys : System) :
  existsb (Nat.eqb call) (active (login_fx (effects sys))) = false ->
  step fuel (LoginResponse call r) sys = Ok sys.
Proof. intros H. unfold step. rewrite H, andb_false_r. reflexivity. Qed.

Lemma step_profile_stray (fuel call : nat) (r : HttpResponse User) (sys : System) :
  existsb (Nat.eqb call) (active (getUserProfile_fx (effects sys))) = false ->
  step fuel (ProfileResponse call r) sys = Ok sys.
Proof. intros H. unfold step. rewrite H, andb_false_r. reflexivity. Qed.

Lemma existsb_call (call : nat) (l : list nat) :
  existsb (Nat.eqb call) l = true -> In call l.
Proof.
  intros H. apply existsb_exists in H. destruct H as (c & Hc & E).
  apply Nat.eqb_eq in E. subst c. exact Hc.
Qed.

Lemma allAlive_each (fx : Effects) :
  allAlive fx = true ->
  alive (login_fx fx) = true /\ alive (loginSuccess_fx fx) = true
  /\ alive (logout_fx fx) = true /\ alive (logoutSuccess_fx fx) = true
  /\ alive (getUserProfile_fx fx) = true.
Proof.
  unfold allAlive. intros H.
  repeat (apply andb_prop in H; destruct H as [H ?]). auto.
Qed.

Lemma run_one (fuel : nat) (ev : Event) (sys : System) :
  run fuel [ev] sys = step fuel ev sys.
Proof. cbn [run]. destruct (step fuel ev sys); reflexivity. Qed.

Lemma step_dispatch_no_fuel (a : Action) (sys : System) :
  step 0 (Dispatch a) sys = Err OutOfFuel.
Proof. reflexivity. Qed.

(** The invariant after one committed action that no effect answers. *)
Lemma systemOk_commit (sys : System) (st0 : Store) (a : Action) (fx' : Effects)
  (disp : list Action) (effs : list SideEffect) :
  systemOk sys ->
  storeOk st0 ->
  state st0 = state (store sys) ->
  graph st0 = graph (store sys) ->
  fresh (store sys) <= fresh st0 ->
  (props_user a = None
   \/ exists u, props_user a = Some u /\ oid u = fresh (store sys)
                /\ fresh (store sys) < fresh st0) ->
  allAlive fx' = true ->
  tokenStored (fold_left perform effs (localStorage sys))
  = match a with
    | loginSuccess _ => true
    | logoutSuccess => false
    | _ => isAuthenticated (sliceOf (store sys))
    end ->
  systemOk (mkSystem (commit a st0) fx' disp (done sys ++ effs)).
Proof.
  intros (Hok & Hub & Hal & Hinv & Htok) Hok0 Est Egr Hfr Hu Hal' Htok'.
  assert (Hub0 : usersBelow (fresh (store sys)) st0).
  { unfold usersBelow, sliceOf in *. rewrite Est, Egr. exact Hub. }
  assert (Hinv0 : authenticatedHasUser (user (fields (state st0))) = true)
    by (rewrite Est; exact Hinv).
  destruct (commit_keeps a st0 (fresh (store sys)) Hok0 Hub0 Hfr Hu Hinv0)
    as (H1 & H2 & H3).
  unfold systemOk. cbn [store effects].
  split; [exact H1|]. split; [exact H2|]. split; [exact Hal'|]. split; [exact H3|].
  rewrite localStorage_done. fold (localStorage sys).
  rewrite Htok', (commit_sliceOf a st0 Hok0).
  unfold sliceOf. rewrite Est. reflexivity.
Qed.

Lemma tokenStored_navigate (s : LocalStorage.Storage) (effs : list SideEffect) :
  (forall eff, In eff effs -> exists c, eff = navigate c) ->
  fold_left perform effs s = s.
Proof.
  revert s. induction effs as [|eff rest IH]; intros s H; cbn [fold_left].
  - reflexivity.
  - destruct (H eff (or_introl eq_refl)) as [c ->]. cbn [perform].
    apply IH. intros eff' Hin. apply H. right. exact Hin.
Qed.

(** The invariant is kept by everything that happens. *)
Lemma systemOk_happen (fuel : nat) (h : Happening) (sys sys' : System) :
  systemOk sys -> happen fuel h sys = Ok sys' -> systemOk sys'.
Proof.
  intros Hsys Hh.
  pose proof Hsys as (Hok & Hub & Hal & Hinv & Htok).
  destruct (allAlive_each _ Hal) as (A1 & A2 & A3 & A4 & A5).
  assert (Hlogin : forall u p s', step fuel (Dispatch (login u p)) sys = Ok s' ->
                                  systemOk s').
  { intros u p s' E. destruct fuel as [|k]; [discriminate E|].
    rewrite (step_login k u p sys Hok A1) in E. injection E as <-.
    rewrite <- (app_nil_r (done sys)).
    apply systemOk_commit; auto;
          try (apply storeOk_with_fresh; [exact Hok | lia]);
          try (cbn; lia);
          try (unfold allAlive; cbn; rewrite A1, A2, A3, A4, A5; reflexivity);
          try (cbn; exact Htok). }
  assert (Hprofile : forall s', step fuel (Dispatch getUserProfile) sys = Ok s' ->
                                systemOk s').
  { intros s' E. destruct fuel as [|k]; [discriminate E|].
    rewrite (step_getUserProfile k sys Hok A5) in E. injection E as <-.
    rewrite <- (app_nil_r (done sys)).
    apply systemOk_commit; auto;
          try (apply storeOk_with_fresh; [exact Hok | lia]);
          try (cbn; lia);
          try (unfold allAlive; cbn; rewrite A1, A2, A3, A4, A5; reflexivity);
          try (cbn; exact Htok). }
  destruct h as [u p | | | | call r | call r | n | t]; cbn [happen] in Hh.
  - unfold LoginComponent.onSubmit in Hh.
    destruct (LoginComponent.valid u p).
    + rewrite run_one in Hh. eapply Hlogin; exact Hh.
    + injection Hh as <-. exact Hsys.
  - unfold AdminDashboardComponent.onLogout in Hh. rewrite run_one in Hh.
    destruct fuel as [|[|k]].
    + discriminate Hh.
    + exfalso. unfold step in Hh. cbn [run_bus] in Hh.
      destruct (dispatch_eq logout (store sys) Hok) as [E _]. rewrite E in Hh.
      rewrite (observe_logout _ A3) in Hh. discriminate Hh.
    + rewrite (step_logout k sys Hok A3) in Hh. injection Hh as <-.
      destruct (dispatch_eq logout (store sys) Hok) as [_ Hok1].
      destruct (commit_keeps logout (store sys) (fresh (store sys)) Hok Hub
                  (Nat.le_refl _) (or_introl eq_refl) Hinv) as (_ & Hub1 & Hinv1).
      destruct (commit_keeps logoutSuccess _ _ Hok1 Hub1
                  (Nat.le_refl _) (or_introl eq_refl) Hinv1) as (Hok2 & Hub2 & Hinv2).
      unfold systemOk. cbn [store effects].
      split; [exact Hok2|]. split; [exact Hub2|]. split.
      { unfold allAlive. cbn. rewrite A1, A2, A3, A4, A5. reflexivity. }
      split; [exact Hinv2|].
      rewrite localStorage_done, (commit_sliceOf logoutSuccess _ Hok1).
      rewrite A4. cbn [fold_left perform].
      unfold localStorage. cbn [done]. rewrite fold_left_app. cbn [fold_left perform].
      unfold tokenStored, getToken. rewrite getItem_removeItem. reflexivity.
  - unfold UserProfileComponent.ngOnInit, UserProfileComponent.refreshProfile in Hh.
    rewrite run_one in Hh. apply Hprofile. exact Hh.
  - unfold UserProfileComponent.refreshProfile in Hh.
    rewrite run_one in Hh. apply Hprofile. exact Hh.
  - destruct (existsb (Nat.eqb call) (active (login_fx (effects sys)))) eqn:Eact.
    + apply existsb_call in Eact. destruct fuel as [|k].
      { exfalso. unfold step in Hh. rewrite A1, (active_call _ _ Eact) in Hh.
        cbn [andb] in Hh. destruct r as [[tok u]|e]; cbn in Hh; discriminate Hh. }
      destruct r as [[tok u]|e].
      * rewrite (step_login_ok k call tok u sys Hok A1 Eact) in Hh. injection Hh as <-.
        rewrite A2, <- app_assoc.
        apply systemOk_commit; auto;
          try (apply storeOk_with_fresh; [exact Hok | lia]);
          try (cbn; lia);
          try (unfold allAlive; cbn; rewrite A1, A2, A3, A4, A5; reflexivity);
          try (cbn; exact Htok).
        right. eexists. split; [reflexivity|]. cbn. split; [reflexivity | lia].
      * rewrite (step_login_error k call e sys Hok A1 Eact) in Hh. injection Hh as <-.
        rewrite <- (app_nil_r (done sys)).
        apply systemOk_commit; auto;
          try (apply storeOk_with_fresh; [exact Hok | lia]);
          try (cbn; lia);
          try (unfold allAlive; cbn; rewrite A1, A2, A3, A4, A5; reflexivity);
          try (cbn; exact Htok).
    + rewrite (step_login_stray _ _ _ _ Eact) in Hh. injection Hh as <-. exact Hsys.
  - destruct (existsb (Nat.eqb call) (active (getUserProfile_fx (effects sys)))) eqn:Eact.
    + apply existsb_call in Eact. destruct fuel as [|k].
      { exfalso. unfold step in Hh. rewrite A5, (active_call _ _ Eact) in Hh.
        cbn [andb] in Hh. destruct r as [u|e]; cbn in Hh; discriminate Hh. }
      destruct r as [u|e].
      * rewrite (step_profile_ok k call u sys Hok A5 Eact) in Hh. injection Hh as <-.
        rewrite <- (app_nil_r (done sys)).
        apply systemOk_commit; auto;
          try (apply storeOk_with_fresh; [exact Hok | lia]);
          try (cbn; lia);
          try (unfold allAlive; cbn; rewrite A1, A2, A3, A4, A5; reflexivity);
          try (cbn; exact Htok).
        right. eexists. split; [reflexivity|]. cbn. split; [reflexivity | lia].
      * rewrite (step_profile_error k call e sys Hok A5 Eact) in Hh. injection Hh as <-.
        rewrite <- (app_nil_r (done sys)).
        apply systemOk_commit; auto;
          try (apply storeOk_with_fresh; [exact Hok | lia]);
          try (cbn; lia);
          try (unfold allAlive; cbn; rewrite A1, A2, A3, A4, A5; reflexivity);
          try (cbn; exact Htok).
    + rewrite (step_profile_stray _ _ _ _ Eact) in Hh. injection Hh as <-. exact Hsys.
  - injection Hh as <-. destruct (read_eq n (store sys) Hok) as [E Hok'].
    unfold systemOk, with_store. cbn [store effects].
    split; [exact Hok'|]. split.
    { rewrite E. cbn [snd fresh]. eapply (usersBelow_touchTarget (selector n));
        [exact Hub | reflexivity]. }
    split; [exact Hal|]. rewrite E. cbn [snd state]. split; [exact Hinv|].
    exact Htok.
  - injection Hh as <-. pose proof (storeOk_subscribe t (store sys) Hok) as Hok'.
    pose proof Hok as (_ & _ & _ & Hg & _).
    unfold systemOk, with_store. cbn [store effects].
    split; [exact Hok'|].
    unfold subscribe in *. rewrite (select_eq _ _ _ _ Hg) in *.
    split.
    { cbn [fresh]. eapply (usersBelow_touchTarget t); [exact Hub | reflexivity]. }
    split; [exact Hal|]. split; [exact Hinv | exact Htok].
Qed.

Lemma systemOk_initial : systemOk (initialSystem []).
Proof.
  unfold systemOk. cbn [initialSystem fold_left store effects].
  split; [apply storeOk_initial|]. rewrite initialStore_eq.
  split; [|repeat split].
  split; [intros x Hx; discriminate Hx | exact I].
Qed.

Lemma appReachable_ok (sys : System) : appReachable sys -> systemOk sys.
Proof.
  induction 1 as [|fuel h sys sys' _ IH Hh].
  - apply systemOk_initial.
  - eapply systemOk_happen; eassumption.
Qed.

Lemma read_keeps (n : Node) (b : ref) (st : Store) :
  storeOk st -> usersBelow b st ->
  let st' := snd (read (selectNode n) st) in
  storeOk st' /\ usersBelow b st' /\ state st' = state st.
Proof.
  intros Hok Hub. destruct (read_eq n st Hok) as [E Hok']. cbn zeta.
  split; [exact Hok'|]. rewrite E. cbn [snd state]. split; [|reflexivity].
  eapply (usersBelow_touchTarget (selector n)); [exact Hub | reflexivity].
Qed.

Lemma read_selectUserRole (b : ref) (st : Store) :
  storeOk st -> usersBelow b st ->
  read selectUserRole st
  = (project_userRole (currentUser (sliceOf st)),
     snd (read (selectNode userRole_node) st)).
Proof.
  intros (_ & _ & _ & Hg & _) [_ Hm].
  pose proof (selectNode_eq userRole_node _ _ _ Hg) as E.
  unfold read. cbn [selectNode] in *.
  destruct (selectUserRole (state st) (graph st)) as [v g'].
  injection E as Ev Eg. cbn [valueNode] in Ev. subst.
  unfold sliceOf in *. rewrite (roleMemoOk_out _ _ _ Hm). reflexivity.
Qed.

Lemma AuthGuard_eq (st : Store) :
  storeOk st ->
  AuthGuard.canActivate st
  = (authDecision (sliceOf st), snd (read (selectNode isAuthenticated_node) st)).
Proof.
  intros Hok. unfold AuthGuard.canActivate.
  rewrite (read_selectIsAuthenticated st Hok). reflexivity.
Qed.

Lemma RoleGuard_eq (b : ref) (st : Store) :
  storeOk st -> usersBelow b st ->
  RoleGuard.canActivate st
  = (roleDecision (sliceOf st), snd (read (selectNode userRole_node) st)).
Proof.
  intros Hok Hub. unfold RoleGuard.canActivate.
  rewrite (read_selectUserRole b st Hok Hub). unfold roleDecision.
  destruct (currentUser (sliceOf st)); reflexivity.
Qed.

(** X6. [RoleGuard] decides on the user of the moment: in every state of
    the running application it allows the navigation exactly when there is
    a current user whose role is [admin], and sends it to [/dashboard]
    otherwise, in particular when there is no user. *)
Theorem RoleGuard_decides_on_current_user :
  forall sys : System,
    appReachable sys ->
    fst (RoleGuard.canActivate (store sys))
    = match currentUser (sliceOf (store sys)) with
      | Some u => if String.eqb (role (fields u)) "admin"
                  then allowed else redirected ["/dashboard"]
      | None => redirected ["/dashboard"]
      end
    /\ state (snd (RoleGuard.canActivate (store sys))) = state (store sys).
Proof.
  intros sys Hreach.
  destruct (appReachable_ok sys Hreach) as (Hok & Hub & _).
  rewrite (RoleGuard_eq _ _ Hok Hub). cbn [fst snd].
  split; [reflexivity|]. apply (read_keeps _ _ _ Hok Hub).
Qed.

Lemma RoleGuard_decides_on_current_user_witness :
  let sys := initialSystem [] in
  appReachable sys
  /\ fst (RoleGuard.canActivate (store sys)) = redirected ["/dashboard"].
Proof.
  intros sys.
  assert (Hr : appReachable sys) by apply app_started.
  destruct (RoleGuard_decides_on_current_user sys Hr) as [H _].
  split; [exact Hr | exact H].
Defined.

Lemma guards_admin (b : ref) (st : Store) :
  storeOk st -> usersBelow b st ->
  fst (canActivateAll (guardsOf "admin") st)
  = (if isAuthenticated (sliceOf st) then roleDecision (sliceOf st)
     else redirected ["/login"]).
Proof.
  intros Hok Hub.
  destruct (read_keeps isAuthenticated_node _ _ Hok Hub) as (Hok1 & Hub1 & Hst1).
  assert (Hsl : sliceOf (snd (read (selectNode isAuthenticated_node) st)) = sliceOf st)
    by (unfold sliceOf; rewrite Hst1; reflexivity).
  change (guardsOf "admin") with [theAuthGuard; theRoleGuard].
  cbn [canActivateAll runGuard].
  rewrite (AuthGuard_eq _ Hok), (RoleGuard_eq _ _ Hok1 Hub1), Hsl.
  cbn [fst]. unfold authDecision.
  destruct (isAuthenticated (sliceOf st)); [|reflexivity].
  destruct (roleDecision (sliceOf st)); reflexivity.
Qed.

Lemma guards_dashboard (st : Store) :
  storeOk st ->
  fst (canActivateAll (guardsOf "dashboard") st) = authDecision (sliceOf st).
Proof.
  intros Hok. change (guardsOf "dashboard") with [theAuthGuard].
  cbn [canActivateAll runGuard]. rewrite (AuthGuard_eq _ Hok).
  cbn [fst]. destruct (authDecision (sliceOf st)); reflexivity.
Qed.

(** X7. The guards of the routes: in every state of the running
    application the [admin] route is activated exactly when the state is
    authenticated and the current user's role is [admin]; without
    authentication the navigation goes to [/login] (the first guard
    decides), with it and another role to [/dashboard]; the [dashboard]
    route is activated exactly when the state is authenticated; the [login]
    route always. *)
Theorem route_guards :
  forall sys : System,
    appReachable sys ->
    let s := sliceOf (store sys) in
    fst (canActivateAll (guardsOf "admin") (store sys))
    = (if isAuthenticated s
       then match currentUser s with
            | Some u => if String.eqb (role (fields u)) "admin"
                        then allowed else redirected ["/dashboard"]
            | None => redirected ["/dashboard"]
            end
       else redirected ["/login"])
    /\ fst (canActivateAll (guardsOf "dashboard") (store sys))
       = (if isAuthenticated s then allowed else redirected ["/login"])
    /\ fst (canActivateAll (guardsOf "login") (store sys)) = allowed.
Proof.
  intros sys Hreach s. subst s.
  destruct (appReachable_ok sys Hreach) as (Hok & Hub & _).
  split; [|split].
  - rewrite (guards_admin _ _ Hok Hub). reflexivity.
  - rewrite (guards_dashboard _ Hok). reflexivity.
  - reflexivity.
Qed.

Lemma route_guards_witness :
  let sys := initialSystem [] in
  appReachable sys
  /\ fst (canActivateAll (guardsOf "admin") (store sys)) = redirected ["/login"]
  /\ fst (canActivateAll (guardsOf "dashboard") (store sys)) = redirected ["/login"].
Proof.
  intros sys.
  assert (Hr : appReachable sys) by apply app_started.
  destruct (route_guards sys Hr) as (H1 & H2 & _).
  split; [exact Hr | split; [exact H1 | exact H2]].
Defined.

(** X8. The running application never gets stuck: whatever happens to it,
    with fuel for two actions the step returns a system, no effect is
    terminated by it, and the state stays one in which [isAuthenticated]
    holds only with a user. *)
Theorem application_never_fails :
  forall (sys : System) (h : Happening) (k : nat),
    appReachable sys ->
    exists sys' : System,
      happen (S (S k)) h sys = Ok sys'
      /\ appReachable sys'
      /\ allAlive (effects sys') = true
      /\ authenticatedHasUser (user (fields (state (store sys')))) = true.
Proof.
  intros sys h k Hreach.
  destruct (appReachable_ok sys Hreach) as (Hok & Hub & Hal & Hinv & Htok).
  destruct (allAlive_each _ Hal) as (A1 & A2 & A3 & A4 & A5).
  assert (Hex : exists sys', happen (S (S k)) h sys = Ok sys').
  { destruct h as [u p | | | | call r | call r | n | t]; cbn [happen].
    - unfold LoginComponent.onSubmit. destruct (LoginComponent.valid u p).
      + rewrite run_one, (step_login _ u p sys Hok A1). eauto.
      + cbn [run]. eauto.
    - unfold AdminDashboardComponent.onLogout.
      rewrite run_one, (step_logout k sys Hok A3). eauto.
    - unfold UserProfileComponent.ngOnInit, UserProfileComponent.refreshProfile.
      rewrite run_one, (step_getUserProfile _ sys Hok A5). eauto.
    - unfold UserProfileComponent.refreshProfile.
      rewrite run_one, (step_getUserProfile _ sys Hok A5). eauto.
    - destruct (existsb (Nat.eqb call) (active (login_fx (effects sys)))) eqn:Eact.
      + apply existsb_call in Eact. destruct r as [[tok u]|e].
        * rewrite (step_login_ok _ call tok u sys Hok A1 Eact). eauto.
        * rewrite (step_login_error _ call e sys Hok A1 Eact). eauto.
      + rewrite (step_login_stray _ _ _ _ Eact). eauto.
    - destruct (existsb (Nat.eqb call) (active (getUserProfile_fx (effects sys))))
        eqn:Eact.
      + apply existsb_call in Eact. destruct r as [u|e].
        * rewrite (step_profile_ok _ call u sys Hok A5 Eact). eauto.
        * rewrite (step_profile_error _ call e sys Hok A5 Eact). eauto.
      + rewrite (step_profile_stray _ _ _ _ Eact). eauto.
    - eauto.
    - eauto. }
  destruct Hex as [sys' Hh]. exists sys'.
  assert (Hreach' : appReachable sys') by (eapply app_happened; eassumption).
  destruct (appReachable_ok sys' Hreach') as (_ & _ & Hal' & Hinv' & _).
  auto.
Qed.

Lemma application_never_fails_witness :
  let sys := initialSystem [] in
  appReachable sys
  /\ exists sys' : System,
      happen 2 logout_clicked sys = Ok sys'
      /\ allAlive (effects sys') = true.
Proof.
  intros sys.
  assert (Hr : appReachable sys) by apply app_started.
  destruct (application_never_fails sys logout_clicked 0 Hr) as (sys' & H1 & _ & H2 & _).
  split; [exact Hr|]. exists sys'. split; [exact H1 | exact H2].
Defined.

(** X9. Token and authentication go together: in every state of the
    running application (started without a token) a token is stored exactly
    when [isAuthenticated] is true, and [isLoggedIn()] is true only when
    [isAuthenticated] is. *)
Theorem token_stored_iff_authenticated :
  forall sys : System,
    appReachable sys ->
    tokenStored (localStorage sys) = isAuthenticated (sliceOf (store sys))
    /\ implb (isLoggedIn (localStorage sys)) (isAuthenticated (sliceOf (store sys)))
       = true.
Proof.
  intros sys Hreach.
  destruct (appReachable_ok sys Hreach) as (_ & _ & _ & _ & Htok).
  split; [exact Htok|]. rewrite <- Htok.
  unfold isLoggedIn, tokenStored, truthy.
  destruct (getToken (localStorage sys)) as [t|]; [|reflexivity].
  destruct (negb (String.eqb t "")); reflexivity.
Qed.

Lemma token_stored_iff_authenticated_witness :
  let sys := initialSystem [] in
  appReachable sys
  /\ tokenStored (localStorage sys) = false
  /\ isAuthenticated (sliceOf (store sys)) = false.
Proof.
  intros sys.
  assert (Hr : appReachable sys) by apply app_started.
  destruct (token_stored_iff_authenticated sys Hr) as [H _].
  split; [exact Hr | split; [reflexivity | rewrite <- H; reflexivity]].
Defined.



Lemma commit_fields (a : Action) (st : Store) :
  storeOk st ->
  sliceOf (commit a st)
  = fields (fst (userReducer (Some (user (fields (state st)))) a (fresh st))).
Proof.
  intros Hok. unfold sliceOf. destruct (commit_slice a st Hok) as [E _].
  rewrite E. reflexivity.
Qed.

Lemma happened (fuel : nat) (h : Happening) (sys sys' : System) :
  appReachable sys -> happen fuel h sys = Ok sys' ->
  appReachable sys' /\ systemOk sys'.
Proof.
  intros Hreach Hh.
  assert (Hreach' : appReachable sys') by (eapply app_happened; eassumption).
  split; [exact Hreach' | apply appReachable_ok; exact Hreach'].
Qed.

Lemma afterHappening_reachable (h : Happening) (sys : System) :
  appReachable sys -> appReachable (afterHappening h sys).
Proof.
  intros Hreach. unfold afterHappening.
  destruct (happen 2 h sys) as [sys'|f] eqn:E; [|exact Hreach].
  eapply app_happened; eassumption.
Qed.

(** X11. A failed profile exchange keeps the session: [getCurrentUser]
    turns every error into [Failed to fetch user profile], the effect
    dispatches it as one [[Auth] Login Failure], and the state keeps its
    user and its [isAuthenticated], with [loading] false and that error;
    nothing is stored, removed or navigated. *)
Theorem profile_failure_keeps_session :
  forall (sys : System) (call : nat) (e : JsError) (k : nat),
    appReachable sys ->
    In call (active (getUserProfile_fx (effects sys))) ->
    exists sys' : System,
      happen (S k) (profile_answered call (HttpError e)) sys = Ok sys'
      /\ dispatched sys'
         = dispatched sys ++ [loginFailure "Failed to fetch user profile"]
      /\ sliceOf (store sys')
         = mkUserState (currentUser (sliceOf (store sys)))
             (isAuthenticated (sliceOf (store sys))) false
             (Some "Failed to fetch user profile")
      /\ done sys' = done sys
      /\ allAlive (effects sys') = true.
Proof.
  intros sys call e k Hreach Hin.
  destruct (appReachable_ok sys Hreach) as (Hok & Hub & Hal & _).
  destruct (allAlive_each _ Hal) as (A1 & A2 & A3 & A4 & A5).
  eexists. split; [cbn [happen]; apply step_profile_error; assumption|].
  cbn [store dispatched done effects].
  split; [reflexivity|]. split; [|split; [reflexivity|]].
  - rewrite commit_fields
      by (apply storeOk_with_fresh; [exact Hok | apply Nat.le_refl]).
    rewrite userReducer_eq. reflexivity.
  - unfold allAlive. cbn. rewrite A1, A2, A3, A4, A5. reflexivity.
Qed.

Lemma profile_failure_keeps_session_witness :
  let sys := afterHappening profile_opened (initialSystem []) in
  appReachable sys
  /\ In 0 (active (getUserProfile_fx (effects sys)))
  /\ exists sys' : System,
      happen 1 (profile_answered 0 (HttpError (mkError "Http failure response"))) sys
      = Ok sys'
      /\ dispatched sys'
         = [getUserProfile; loginFailure "Failed to fetch user profile"].
Proof.
  intros sys.
  assert (Hr : appReachable sys) by (apply afterHappening_reachable, app_started).
  assert (Hin : In 0 (active (getUserProfile_fx (effects sys)))) by (left; reflexivity).
  destruct (profile_failure_keeps_session sys 0 (mkError "Http failure response") 0 Hr Hin)
    as (sys' & H1 & H2 & _).
  split; [exact Hr | split; [exact Hin|]].
  exists sys'. split; [exact H1 | exact H2].
Defined.

(** X12. A profile exchange that succeeds replaces the user and nothing
    else: the effect dispatches one [[User] Get User Profile Success] with
    the user of the answer, the state holds that user with [loading] false,
    and [isAuthenticated] and [error] are the ones before, so that a profile
    alone never authenticates; nothing is stored, removed or navigated. *)
Theorem profile_success_replaces_user :
  forall (sys : System) (call : nat) (u : User) (k : nat),
    appReachable sys ->
    In call (active (getUserProfile_fx (effects sys))) ->
    exists (sys' : System) (o : Obj User),
      happen (S k) (profile_answered call (HttpOk u)) sys = Ok sys'
      /\ fields o = u
      /\ dispatched sys' = dispatched sys ++ [getUserProfileSuccess o]
      /\ sliceOf (store sys')
         = mkUserState (Some o) (isAuthenticated (sliceOf (store sys))) false
             (error (sliceOf (store sys)))
      /\ done sys' = done sys.
Proof.
  intros sys call u k Hreach Hin.
  destruct (appReachable_ok sys Hreach) as (Hok & Hub & Hal & _).
  destruct (allAlive_each _ Hal) as (A1 & A2 & A3 & A4 & A5).
  eexists. exists (mkObj (fresh (store sys)) u).
  split; [cbn [happen]; apply step_profile_ok; assumption|].
  cbn [store dispatched done effects fields].
  split; [reflexivity|]. split; [reflexivity|]. split; [|reflexivity].
  rewrite commit_fields by (apply storeOk_with_fresh; [exact Hok | lia]).
  rewrite userReducer_eq. reflexivity.
Qed.

Lemma profile_success_replaces_user_witness :
  let sys := afterHappening profile_opened (initialSystem []) in
  let alice := mkUser "1" "Alice" "alice@example.com" "admin" in
  appReachable sys
  /\ In 0 (active (getUserProfile_fx (effects sys)))
  /\ exists (sys' : System) (o : Obj User),
      happen 1 (profile_answered 0 (HttpOk alice)) sys = Ok sys'
      /\ fields o = alice
      /\ sliceOf (store sys') = mkUserState (Some o) false false None.
Proof.
  intros sys alice.
  assert (Hr : appReachable sys) by (apply afterHappening_reachable, app_started).
  assert (Hin : In 0 (active (getUserProfile_fx (effects sys)))) by (left; reflexivity).
  destruct (profile_success_replaces_user sys 0 alice 0 Hr Hin)
    as (sys' & o & H1 & H2 & _ & H4 & _).
  split; [exact Hr | split; [exact Hin|]].
  exists sys', o. split; [exact H1 | split; [exact H2 | exact H4]].
Defined.

(** X13. A login exchange that succeeds stores the token and opens the
    dashboard: the token of the answer is written under [auth_token], then
    the router is sent to [/dashboard], and nothing else is performed;
    [getToken()] returns that token afterwards, [isLoggedIn()] is true
    unless the token is the empty string, and the interceptor sets
    [Authorization: Bearer <token>] on a request unless the token is the
    empty string, in which case it hands the request on as it is. *)
Theorem login_success_stores_token :
  forall (Request : Type)
         (clone_setHeaders : list (string * string) -> Request -> Request)
         (request : Request)
         (sys : System) (call : nat) (tok : string) (u : User) (k : nat),
    appReachable sys ->
    In call (active (login_fx (effects sys))) ->
    exists sys' : System,
      happen (S k) (login_answered call (HttpOk (tok, u))) sys = Ok sys'
      /\ done sys'
         = done sys ++ [setItem AuthService.tokenKey tok; navigate ["/dashboard"]]
      /\ getToken (localStorage sys') = Some tok
      /\ isLoggedIn (localStorage sys') = negb (String.eqb tok "")
      /\ AuthInterceptor.intercept clone_setHeaders (localStorage sys') request
         = (if String.eqb tok "" then request
            else clone_setHeaders [("Authorization", "Bearer " ++ tok)%string] request).
Proof.
  intros Request clone request sys call tok u k Hreach Hin.
  destruct (appReachable_ok sys Hreach) as (Hok & Hub & Hal & _).
  destruct (allAlive_each _ Hal) as (A1 & A2 & A3 & A4 & A5).
  eexists. split; [cbn [happen]; apply step_login_ok; assumption|].
  rewrite A2.
  assert (Htok : getToken
                   (localStorage
                      (mkSystem
                         (commit (loginSuccess (mkObj (fresh (store sys)) u))
                            (with_fresh (S (fresh (store sys))) (store sys)))
                         (mkEffects (inner_ended call completed (login_fx (effects sys)))
                            (loginSuccess_fx (effects sys)) (logout_fx (effects sys))
                            (logoutSuccess_fx (effects sys))
                            (getUserProfile_fx (effects sys)) (nextCall (effects sys)))
                         (dispatched sys ++ [loginSuccess (mkObj (fresh (store sys)) u)])
                         ((done sys ++ [setItem AuthService.tokenKey tok])
                            ++ [navigate ["/dashboard"]])))
                 = Some tok).
  { unfold localStorage. cbn [done]. rewrite !fold_left_app. cbn [fold_left perform].
    apply getItem_setItem. }
  cbn [done]. split; [rewrite <- app_assoc; reflexivity|].
  split; [exact Htok|].
  unfold isLoggedIn, AuthInterceptor.intercept. rewrite Htok. cbn [truthy].
  split; [apply negb_involutive|].
  destruct (String.eqb tok ""); reflexivity.
Qed.

Lemma login_success_stores_token_witness :
  let sys := afterHappening (login_submitted "alice" "secret") (initialSystem []) in
  let alice := mkUser "1" "Alice" "alice@example.com" "admin" in
  let clone := fun hs (r : list (string * string)) => hs ++ r in
  appReachable sys
  /\ In 0 (active (login_fx (effects sys)))
  /\ exists sys' : System,
      happen 1 (login_answered 0 (HttpOk ("jwt", alice))) sys = Ok sys'
      /\ getToken (localStorage sys') = Some "jwt"
      /\ AuthInterceptor.intercept clone (localStorage sys') []
         = [("Authorization", "Bearer jwt")].
Proof.
  intros sys alice clone.
  assert (Hr : appReachable sys) by (apply afterHappening_reachable, app_started).
  assert (Hin : In 0 (active (login_fx (effects sys)))) by (left; reflexivity).
  destruct (login_success_stores_token _ clone [] sys 0 "jwt" alice 0 Hr Hin)
    as (sys' & H1 & _ & H3 & _ & H5).
  split; [exact Hr | split; [exact Hin|]].
  exists sys'. split; [exact H1 | split; [exact H3 | exact H5]].
Defined.

(** X14. After a login exchange that succeeds the guards follow the user
    of the answer: the state is authenticated with that user, the
    [dashboard] route is activated, and the [admin] route is activated
    exactly when the user's role is [admin], the navigation going to
    [/dashboard] otherwise. *)
Theorem login_success_opens_routes :
  forall (sys : System) (call : nat) (tok : string) (u : User) (k : nat),
    appReachable sys ->
    In call (active (login_fx (effects sys))) ->
    exists (sys' : System) (o : Obj User),
      happen (S k) (login_answered call (HttpOk (tok, u))) sys = Ok sys'
      /\ fields o = u
      /\ sliceOf (store sys') = mkUserState (Some o) true false None
      /\ fst (canActivateAll (guardsOf "dashboard") (store sys')) = allowed
      /\ fst (canActivateAll (guardsOf "admin") (store sys'))
         = (if String.eqb (role u) "admin" then allowed else redirected ["/dashboard"]).
Proof.
  intros sys call tok u k Hreach Hin.
  destruct (appReachable_ok sys Hreach) as (Hok & Hub & Hal & _).
  destruct (allAlive_each _ Hal) as (A1 & A2 & A3 & A4 & A5).
  pose proof (step_login_ok k call tok u sys Hok A1 Hin) as Hstep. cbn zeta in Hstep.
  destruct (happened (S k) (login_answered call (HttpOk (tok, u))) sys _ Hreach Hstep)
    as [_ (Hok' & Hub' & _)].
  eexists. exists (mkObj (fresh (store sys)) u).
  split; [exact Hstep|]. cbn [store fields] in *.
  assert (Hsl : sliceOf (commit (loginSuccess (mkObj (fresh (store sys)) u))
                           (with_fresh (S (fresh (store sys))) (store sys)))
                = mkUserState (Some (mkObj (fresh (store sys)) u)) true false None).
  { rewrite commit_fields by (apply storeOk_with_fresh; [exact Hok | lia]).
    rewrite userReducer_eq. reflexivity. }
  split; [reflexivity|]. split; [exact Hsl|].
  rewrite (guards_dashboard _ Hok'), (guards_admin _ _ Hok' Hub'), Hsl.
  split; reflexivity.
Qed.

Lemma login_success_opens_routes_witness :
  let sys := afterHappening (login_submitted "bob" "secret") (initialSystem []) in
  let bob := mkUser "2" "Bob" "bob@example.com" "user" in
  appReachable sys
  /\ In 0 (active (login_fx (effects sys)))
  /\ exists sys' : System,
      happen 1 (login_answered 0 (HttpOk ("jwt", bob))) sys = Ok sys'
      /\ fst (canActivateAll (guardsOf "dashboard") (store sys')) = allowed
      /\ fst (canActivateAll (guardsOf "admin") (store sys')) = redirected ["/dashboard"].
Proof.
  intros sys bob.
  assert (Hr : appReachable sys) by (apply afterHappening_reachable, app_started).
  assert (Hin : In 0 (active (login_fx (effects sys)))) by (left; reflexivity).
  destruct (login_success_opens_routes sys 0 "jwt" bob 0 Hr Hin)
    as (sys' & o & H1 & _ & _ & H4 & H5).
  split; [exact Hr | split; [exact Hin|]].
  exists sys'. split; [exact H1 | split; [exact H4 | exact H5]].
Defined.




(** X16. The login form dispatches only when it is valid: with an empty
    user name or an empty password [onSubmit] leaves the application as it
    is; otherwise it dispatches one [[Auth] Login] with the two values,
    after which [loading] is true, [error] is null, user and
    [isAuthenticated] are the ones before, and one more login call is in
    flight. *)
Theorem onSubmit_dispatches_when_valid :
  forall (sys : System) (username password : string) (k : nat),
    appReachable sys ->
    if LoginComponent.valid username password
    then exists sys' : System,
        happen (S k) (login_submitted username password) sys = Ok sys'
        /\ dispatched sys' = dispatched sys ++ [login username password]
        /\ sliceOf (store sys')
           = mkUserState (currentUser (sliceOf (store sys)))
               (isAuthenticated (sliceOf (store sys))) true None
        /\ active (login_fx (effects sys'))
           = active (login_fx (effects sys)) ++ [nextCall (effects sys)]
    else forall fuel : nat,
        happen fuel (login_submitted username password) sys = Ok sys.
Proof.
  intros sys username password k Hreach.
  destruct (appReachable_ok sys Hreach) as (Hok & Hub & Hal & _).
  destruct (allAlive_each _ Hal) as (A1 & A2 & A3 & A4 & A5).
  destruct (LoginComponent.valid username password) eqn:Hv.
  - eexists. split.
    + cbn [happen]. unfold LoginComponent.onSubmit. rewrite Hv, run_one.
      apply step_login; assumption.
    + cbn [store dispatched effects login_fx subscribe_inner active].
      split; [reflexivity|]. split; [|reflexivity].
      rewrite (commit_fields _ _ Hok), userReducer_eq. reflexivity.
  - intros fuel. cbn [happen]. unfold LoginComponent.onSubmit. rewrite Hv.
    reflexivity.
Qed.

Lemma onSubmit_dispatches_when_valid_witness :
  let sys := initialSystem [] in
  appReachable sys
  /\ (forall fuel : nat, happen fuel (login_submitted "alice" "") sys = Ok sys)
  /\ exists sys' : System,
      happen 1 (login_submitted "alice" "secret") sys = Ok sys'
      /\ dispatched sys' = [login "alice" "secret"].
Proof.
  intros sys.
  assert (Hr : appReachable sys) by apply app_started.
  pose proof (onSubmit_dispatches_when_valid sys "alice" "" 0 Hr) as H1.
  pose proof (onSubmit_dispatches_when_valid sys "alice" "secret" 0 Hr) as H2.
  cbn in H1, H2. destruct H2 as (sys' & E & Hd & _).
  split; [exact Hr | split; [exact H1|]].
  exists sys'. split; [exact E | exact Hd].
Defined.

(** X17. What the effects perform, and when: the router is sent to
    [/dashboard] only when an [[Auth] Login Success] passes and to [/login]
    only when an [[Auth] Logout Success] passes; the token is removed only
    when an [[Auth] Logout] passes; and no effect writes to the storage when
    an action passes (the token is written by the login call itself). *)
Theorem effects_perform_only_on_their_actions :
  forall (a : Action) (fx : Effects) (eff : SideEffect),
    In eff (snd (observe a fx)) ->
    match eff with
    | navigate commands =>
        (type a = UserActions.loginSuccess_type /\ commands = ["/dashboard"])
        \/ (type a = UserActions.logoutSuccess_type /\ commands = ["/login"])
    | removeItem key => type a = UserActions.logout_type /\ key = AuthService.tokenKey
    | setItem _ _ => False
    end.
Proof.
  intros a fx eff. unfold observe, ofType.
  cbn [snd fst].
  destruct a;
    try (rewrite !(foreign_kind kind foreign) by (cbn; tauto));
    cbn;
    rewrite ?andb_false_r, ?andb_true_r;
    destruct (alive (loginSuccess_fx fx)), (alive (logoutSuccess_fx fx)),
      (alive (logout_fx fx));
    cbn; intros H;
    repeat (destruct H as [<- | H]; [cbn; auto|]); try contradiction.
Qed.

Lemma effects_perform_only_on_their_actions_witness :
  let fx := mkEffects started started started started started 0 in
  In (removeItem "auth_token") (snd (observe logout fx))
  /\ type logout = UserActions.logout_type
  /\ "auth_token" = AuthService.tokenKey.
Proof.
  intros fx.
  assert (Hin : In (removeItem "auth_token") (snd (observe logout fx)))
    by (left; reflexivity).
  pose proof (effects_perform_only_on_their_actions logout fx _ Hin) as H.
  cbn in H. split; [exact Hin | exact H].
Defined.

(** X18. Logging out ends the session everywhere: a click on the logout
    button removes the token and then sends the router to [/login], and
    nothing else is performed; afterwards the slice has the fields of
    [initialUserState], [getToken()] returns null, [isLoggedIn()] is false,
    and both guarded routes send the navigation to [/login]. *)
Theorem logout_ends_session :
  forall (sys : System) (k : nat),
    appReachable sys ->
    exists sys' : System,
      happen (S (S k)) logout_clicked sys = Ok sys'
      /\ done sys'
         = done sys ++ [removeItem AuthService.tokenKey; navigate ["/login"]]
      /\ sliceOf (store sys') = fields initialUserState
      /\ getToken (localStorage sys') = None
      /\ isLoggedIn (localStorage sys') = false
      /\ fst (canActivateAll (guardsOf "dashboard") (store sys')) = redirected ["/login"]
      /\ fst (canActivateAll (guardsOf "admin") (store sys')) = redirected ["/login"].
Proof.
  intros sys k Hreach.
  destruct (appReachable_ok sys Hreach) as (Hok & Hub & Hal & _).
  destruct (allAlive_each _ Hal) as (A1 & A2 & A3 & A4 & A5).
  pose proof (step_logout k sys Hok A3) as Hstep. cbn zeta in Hstep. rewrite A4 in Hstep.
  assert (Hh : happen (S (S k)) logout_clicked sys = step (S (S k)) (Dispatch logout) sys)
    by (cbn [happen]; apply run_one).
  rewrite Hstep in Hh.
  destruct (happened _ _ _ _ Hreach Hh) as [_ (Hok' & Hub' & _ & _ & Htok')].
  eexists. split; [exact Hh|]. cbn [store done] in *.
  destruct (dispatch_eq logout (store sys) Hok) as [_ Hok1].
  assert (Hsl : sliceOf (commit logoutSuccess (commit logout (store sys)))
                = fields initialUserState).
  { rewrite (commit_fields _ _ Hok1), userReducer_eq. reflexivity. }
  rewrite Hsl in Htok'. cbn [isAuthenticated fields initialUserState] in Htok'.
  unfold tokenStored in Htok'.
  split; [rewrite <- app_assoc; reflexivity|]. split; [exact Hsl|].
  assert (Hnone : getToken
                    (localStorage
                       (mkSystem (commit logoutSuccess (commit logout (store sys)))
                          (mkEffects (login_fx (effects sys)) (loginSuccess_fx (effects sys))
                             (logout_fx (effects sys)) (logoutSuccess_fx (effects sys))
                             (getUserProfile_fx (effects sys)) (nextCall (effects sys)))
                          ((dispatched sys ++ [logout]) ++ [logoutSuccess])
                          ((done sys ++ [removeItem AuthService.tokenKey])
                             ++ [navigate ["/login"]])))
                  = None).
  { match type of Htok' with
    | match ?t with _ => _ end = _ => destruct t; [discriminate Htok' | reflexivity]
    end. }
  split; [exact Hnone|].
  split; [unfold isLoggedIn; rewrite Hnone; reflexivity|].
  rewrite (guards_dashboard _ Hok'), (guards_admin _ _ Hok' Hub'), Hsl.
  split; reflexivity.
Qed.

Lemma logout_ends_session_witness :
  let sys := afterHappening
               (login_answered 0
                  (HttpOk ("jwt", mkUser "1" "Alice" "alice@example.com" "admin")))
               (afterHappening (login_submitted "alice" "secret") (initialSystem [])) in
  appReachable sys
  /\ getToken (localStorage sys) = Some "jwt"
  /\ exists sys' : System,
      happen 2 logout_clicked sys = Ok sys'
      /\ getToken (localStorage sys') = None
      /\ fst (canActivateAll (guardsOf "admin") (store sys')) = redirected ["/login"].
Proof.
  intros sys.
  assert (Hr : appReachable sys)
    by (apply afterHappening_reachable, afterHappening_reachable, app_started).
  destruct (logout_ends_session sys 0 Hr) as (sys' & H1 & _ & _ & H4 & _ & _ & H7).
  split; [exact Hr | split; [vm_compute; reflexivity|]].
  exists sys'. split; [exact H1 | split; [exact H4 | exact H7]].
Defined.

(** X19. Opening the profile asks for it: [ngOnInit] (and every click on
    the refresh button, which does the same) dispatches one
    [[User] Get User Profile], after which [loading] is true, the user,
    [isAuthenticated] and [error] are the ones before, one more profile call
    is in flight, and nothing has been performed. *)
Theorem profile_opened_requests_profile :
  forall (sys : System) (k : nat),
    appReachable sys ->
    happen (S k) profile_refreshed sys = happen (S k) profile_opened sys
    /\ exists sys' : System,
        happen (S k) profile_opened sys = Ok sys'
        /\ dispatched sys' = dispatched sys ++ [getUserProfile]
        /\ sliceOf (store sys')
           = mkUserState (currentUser (sliceOf (store sys)))
               (isAuthenticated (sliceOf (store sys))) true
               (error (sliceOf (store sys)))
        /\ active (getUserProfile_fx (effects sys'))
           = active (getUserProfile_fx (effects sys)) ++ [nextCall (effects sys)]
        /\ done sys' = done sys.
Proof.
  intros sys k Hreach.
  destruct (appReachable_ok sys Hreach) as (Hok & Hub & Hal & _).
  destruct (allAlive_each _ Hal) as (A1 & A2 & A3 & A4 & A5).
  split; [reflexivity|].
  eexists. split.
  - cbn [happen].
    unfold UserProfileComponent.ngOnInit, UserProfileComponent.refreshProfile.
    rewrite run_one. apply step_getUserProfile; assumption.
  - cbn [store dispatched effects done getUserProfile_fx subscribe_inner active].
    split; [reflexivity|]. split; [|split; reflexivity].
    rewrite (commit_fields _ _ Hok), userReducer_eq. reflexivity.
Qed.

Lemma profile_opened_requests_profile_witness :
  let sys := initialSystem [] in
  appReachable sys
  /\ exists sys' : System,
      happen 1 profile_opened sys = Ok sys'
      /\ dispatched sys' = [getUserProfile]
      /\ active (getUserProfile_fx (effects sys')) = [0].
Proof.
  intros sys.
  assert (Hr : appReachable sys) by apply app_started.
  destruct (profile_opened_requests_profile sys 0 Hr) as (_ & sys' & H1 & H2 & _ & H4 & _).
  split; [exact Hr|]. exists sys'. split; [exact H1 | split; [exact H2 | exact H4]].
Defined.
